(** * Order-fulfilment pipeline of the e-commerce backend

    A shallow embedding of
      - [backend/src/models/Product.js]        (stock fields, [isInStock]),
      - the Coupon model                        ([isValid], [canUserUse],
                                                 [calculateDiscount]),
      - [backend/src/models/Order.js]          (schema, pre-save hooks),
      - [backend/src/controllers/orderController.js]
                                                ([createOrder],
                                                 [updateOrderStatus],
                                                 [updatePaymentStatus]),
      - the realtime event handlers            ([handleStockChange],
                                                 [handleNewOrder], ...)
        and the emit helpers they call         ([emitStockUpdate],
                                                 [emitOrderUpdate], ...).

    Modelling conventions.
      - JavaScript numbers that carry money are exact rationals ([Q]);
        quantities, stock levels and counters are integers ([Z]); rounding
        of binary floating point is not represented.
      - Dates are integers (milliseconds); [new Date()] is the [now]
        argument of the operation.
      - Object ids are natural numbers.  Coupons are keyed by their unique
        code.  The order collection is a list, an order's [_id] being its
        position.
      - The persistence layer is not part of the repository.  Its effect is
        modelled from the schema declarations of the source: [required]
        rejects an absent ([None]) or empty value, [min] rejects a smaller
        number, [enum] rejects a string outside the list.  [save] and
        [create] run the schema's validators first, the [pre("save")]
        hooks after them, and then write; [findByIdAndUpdate] with
        [runValidators] checks only the paths it sets and runs no [save]
        hook.
      - A rejected write throws; the [try]/[catch] of a controller turns a
        throw into the 500 answer ([InternalError]).  Writes made before
        the throw stay.
      - The message log records, in order, the messages the emit
        helpers send.  A helper sends only when [global.io] holds a
        socket server ([io]); no source file assigns [global.io].  The
        [timestamp] a helper adds to a message is not represented. *)

From stdpp Require Import gmap strings list fin_maps.
From Stdlib Require Import Ascii QArith Qminmax Qround Lqa ZArith Lia.

Local Open Scope Z_scope.

(** ** Basic types *)

Abbreviation ObjectId := nat (only parsing).
Abbreviation Date := Z (only parsing).

(** JavaScript truthiness of the values the code tests with [if (x)],
    [x && ...] or [!x]. *)
Definition truthyQ (x : option Q) : bool :=
  match x with
  | Some v => negb (Qeq_bool v 0)
  | None => false
  end.

Definition truthyZ (x : option Z) : bool :=
  match x with
  | Some v => negb (v =? 0)
  | None => false
  end.

Definition truthyS (x : option string) : bool :=
  match x with
  | Some s => negb (String.eqb s "")
  | None => false
  end.

(** [a < b] on numbers. *)
Definition Qltb (a b : Q) : bool := negb (Qle_bool b a).

(** [String.prototype.toUpperCase] on ASCII letters. *)
Definition upcase_ascii (c : ascii) : ascii :=
  let n := nat_of_ascii c in
  if ((97 <=? n) && (n <=? 122))%nat then ascii_of_nat (n - 32) else c.

Fixpoint toUpperCase (s : string) : string :=
  match s with
  | EmptyString => EmptyString
  | String c r => String (upcase_ascii c) (toUpperCase r)
  end.

(** ** Product model (models/Product.js) *)

Module Product.

Record t := mk {
  name : string;
  sku : string;
  images : list string;
  price : Q;
  stock : Z;
  lowStockThreshold : Z;
  trackQuantity : bool;
  allowBackorder : bool;
  isActive : bool;
  totalSales : Z
}.

(** [productSchema.methods.isInStock]. *)
Definition isInStock (this : t) (quantity : Z) : bool :=
  if negb (trackQuantity this) then true
  else if allowBackorder this then true
  else quantity <=? stock this.

(** [product.stock -= q; product.totalSales += q] on the loaded document. *)
Definition sell (this : t) (quantity : Z) : t :=
  mk (name this) (sku this) (images this) (price this)
     (stock this - quantity) (lowStockThreshold this)
     (trackQuantity this) (allowBackorder this) (isActive this)
     (totalSales this + quantity).

(** Validators of the paths [sell] modifies: [stock] has
    [min: [0, "Stock cannot be negative"]]; [totalSales] has none. *)
Definition validate (this : t) : bool := 0 <=? stock this.

End Product.

(** ** Coupon model *)

Module Usage.
Record t := mk {
  user : ObjectId;
  order : option ObjectId;
  discountAmount : Q;
  usedAt : Date
}.
End Usage.

Module Coupon.

Record t := mk {
  code : string;
  discountType : string;
  discountValue : Q;
  minimumOrderAmount : Q;
  maximumDiscountAmount : option Q;
  usageLimit : option Z;
  usageLimitPerUser : option Z;
  usedCount : Z;
  isActive : bool;
  startDate : Date;
  endDate : Date;
  applicableProducts : list ObjectId;
  applicableCategories : list ObjectId;
  applicableUsers : list ObjectId;
  usageHistory : list Usage.t
}.

(** [couponSchema.methods.isValid]. *)
Definition isValid (this : t) (now : Date) : bool :=
  isActive this
  && (startDate this <=? now)
  && (now <=? endDate this)
  && (negb (truthyZ (usageLimit this))
      || match usageLimit this with
         | Some l => usedCount this <? l
         | None => false
         end).

Definition includes (l : list ObjectId) (x : ObjectId) : bool :=
  existsb (Nat.eqb x) l.

(** [couponSchema.methods.canUserUse]. *)
Definition canUserUse (this : t) (userId : ObjectId) (now : Date) : bool :=
  if negb (isValid this now) then false
  else if (0 <? length (applicableUsers this))%nat
          && negb (includes (applicableUsers this) userId) then false
  else
    match usageLimitPerUser this with
    | Some lim =>
        if truthyZ (Some lim) then
          let userUsageCount :=
            Z.of_nat (length (filter (fun usage => Usage.user usage = userId)
                                     (usageHistory this))) in
          if lim <=? userUsageCount then false else true
        else true
    | None => true
    end.

(** [couponSchema.methods.calculateDiscount]; the [items] argument is
    not read by the source. *)
Definition calculateDiscount {Item : Type} (this : t) (now : Date)
    (orderAmount : Q) (items : list Item) : Q :=
  if negb (isValid this now) then 0%Q
  else
    let applicableAmount :=
      if (0 <? length (applicableProducts this))%nat
         || (0 <? length (applicableCategories this))%nat
      then 0%Q else orderAmount in
    if Qltb applicableAmount (minimumOrderAmount this) then 0%Q
    else
      let discountAmount :=
        if String.eqb (discountType this) "percentage"
        then (applicableAmount * discountValue this / 100)%Q
        else discountValue this in
      let discountAmount :=
        match maximumDiscountAmount this with
        | Some m =>
            if truthyQ (Some m) && Qltb m discountAmount then m
            else discountAmount
        | None => discountAmount
        end in
      Qmin discountAmount applicableAmount.

(** [coupon.usedCount += 1; coupon.usageHistory.push({...})]. *)
Definition recordUsage (this : t) (u : Usage.t) : t :=
  mk (code this) (discountType this) (discountValue this)
     (minimumOrderAmount this) (maximumDiscountAmount this)
     (usageLimit this) (usageLimitPerUser this) (usedCount this + 1)
     (isActive this) (startDate this) (endDate this)
     (applicableProducts this) (applicableCategories this)
     (applicableUsers this) (usageHistory this ++ [u]).

(** The update [{ $set: { "usageHistory.$.order": id } }] under the
    filter ["usageHistory.order": null]: the first entry without an
    order receives the id. *)
Fixpoint setFirstNullOrder (h : list Usage.t) (id : ObjectId)
    : option (list Usage.t) :=
  match h with
  | [] => None
  | u :: r =>
      match Usage.order u with
      | None =>
          Some (Usage.mk (Usage.user u) (Some id) (Usage.discountAmount u)
                         (Usage.usedAt u) :: r)
      | Some _ =>
          match setFirstNullOrder r id with
          | Some r' => Some (u :: r')
          | None => None
          end
      end
  end.

Definition withHistory (this : t) (h : list Usage.t) : t :=
  mk (code this) (discountType this) (discountValue this)
     (minimumOrderAmount this) (maximumDiscountAmount this)
     (usageLimit this) (usageLimitPerUser this) (usedCount this)
     (isActive this) (startDate this) (endDate this)
     (applicableProducts this) (applicableCategories this)
     (applicableUsers this) h.

(** What [coupon.save()] checks: the [pre("save")] hook (end date after
    start date), [usedCount] with [min: 0], and the sub-documents of
    [usageHistory], whose [order] path is declared [required: true]
    ([user] and [discountAmount] are always present in this model). *)
Definition validate (this : t) : bool :=
  negb (endDate this <=? startDate this)
  && (0 <=? usedCount this)
  && forallb (fun u => match Usage.order u with
                       | Some _ => true
                       | None => false
                       end)
             (usageHistory this).

End Coupon.

(** ** Order model (models/Order.js) *)

Module OrderItem.
Record t := mk {
  product : ObjectId;
  name : string;
  image : string;
  price : Q;
  quantity : Z;
  variant : option (string * string);
  sku : string
}.

(** [orderItemSchema]: [name] required, [price] with [min: 0],
    [quantity] with [min: 1]. *)
Definition validate (this : t) : bool :=
  negb (String.eqb (name this) "")
  && Qle_bool 0 (price this)
  && (1 <=? quantity this).
End OrderItem.

Module Address.
Record t := mk {
  firstName : string;
  lastName : string;
  company : option string;
  address1 : string;
  address2 : option string;
  city : string;
  state : string;
  zipCode : string;
  country : string;
  phone : option string
}.

Definition present (s : string) : bool := negb (String.eqb s "").

(** [shippingAddressSchema]: the seven [required] paths. *)
Definition validate (this : t) : bool :=
  present (firstName this) && present (lastName this)
  && present (address1 this) && present (city this)
  && present (state this) && present (zipCode this)
  && present (country this).
End Address.

Module StatusEntry.
Record t := mk {
  status : string;
  timestamp : Date;
  note : option string;
  updatedBy : option ObjectId
}.
End StatusEntry.

Module CouponData.
Record t := mk {
  code : string;
  discountType : string;
  discountValue : Q
}.
End CouponData.

Definition inEnum (values : list string) (s : string) : bool :=
  existsb (String.eqb s) values.

Module Order.

Definition paymentMethodEnum : list string :=
  ["credit_card"; "debit_card"; "paypal"; "stripe"; "cash_on_delivery"]%string.
Definition paymentStatusEnum : list string :=
  ["pending"; "paid"; "failed"; "refunded"; "partially_refunded"]%string.
Definition orderStatusEnum : list string :=
  ["pending"; "confirmed"; "processing"; "shipped"; "delivered";
   "cancelled"; "returned"]%string.
Definition discountTypeEnum : list string := ["percentage"; "fixed"]%string.

(** [ORD-<clock>-<count + 1>], kept as the pair of its two numbers. *)
Definition number : Type := Date * nat.

Record t := mk {
  _id : ObjectId;
  orderNumber : option number;
  user : ObjectId;
  items : list OrderItem.t;
  shippingAddress : option Address.t;
  billingAddress : option Address.t;
  paymentMethod : string;
  paymentStatus : string;
  paymentId : option string;
  orderStatus : string;
  subtotal : Q;
  taxAmount : Q;
  shippingAmount : Q;
  discountAmount : Q;
  totalAmount : Q;
  coupon : option CouponData.t;
  notes : option string;
  trackingNumber : option string;
  shippingCarrier : option string;
  deliveredAt : option Date;
  cancelledAt : option Date;
  cancellationReason : option string;
  statusHistory : list StatusEntry.t
}.

Definition validAddress (a : option Address.t) : bool :=
  match a with
  | Some a => Address.validate a
  | None => false
  end.

(** The validators of [orderSchema] that a new document goes through;
    [orderNumber] is declared [required: true]. *)
Definition validate (this : t) : bool :=
  match orderNumber this with
  | Some _ => true
  | None => false
  end
  && forallb OrderItem.validate (items this)
  && validAddress (shippingAddress this)
  && validAddress (billingAddress this)
  && inEnum paymentMethodEnum (paymentMethod this)
  && inEnum paymentStatusEnum (paymentStatus this)
  && inEnum orderStatusEnum (orderStatus this)
  && Qle_bool 0 (subtotal this)
  && Qle_bool 0 (taxAmount this)
  && Qle_bool 0 (shippingAmount this)
  && Qle_bool 0 (discountAmount this)
  && Qle_bool 0 (totalAmount this)
  && match coupon this with
     | Some c => inEnum discountTypeEnum (CouponData.discountType c)
     | None => true
     end.

(** [new Order(doc)] gives the document its [_id]. *)
Definition withId (id : ObjectId) (this : t) : t :=
  mk id (orderNumber this) (user this) (items this)
     (shippingAddress this) (billingAddress this) (paymentMethod this)
     (paymentStatus this) (paymentId this) (orderStatus this)
     (subtotal this) (taxAmount this) (shippingAmount this)
     (discountAmount this) (totalAmount this) (coupon this) (notes this)
     (trackingNumber this) (shippingCarrier this) (deliveredAt this)
     (cancelledAt this) (cancellationReason this) (statusHistory this).

Definition withHistory (this : t) (h : list StatusEntry.t) : t :=
  mk (_id this) (orderNumber this) (user this) (items this)
     (shippingAddress this) (billingAddress this) (paymentMethod this)
     (paymentStatus this) (paymentId this) (orderStatus this)
     (subtotal this) (taxAmount this) (shippingAmount this)
     (discountAmount this) (totalAmount this) (coupon this) (notes this)
     (trackingNumber this) (shippingCarrier this) (deliveredAt this)
     (cancelledAt this) (cancellationReason this) h.

(** Second [pre("save")] hook: "Add status to history when status
    changes". *)
Definition preSaveStatusHistory (isNew isModifiedOrderStatus : bool)
    (now : Date) (this : t) : t :=
  if isModifiedOrderStatus && negb isNew then
    withHistory this
      (statusHistory this ++
         [StatusEntry.mk (orderStatus this) now
            (Some ("Order status changed to " ++ orderStatus this)%string)
            None])
  else this.

(** First [pre("save")] hook: "Generate order number before saving". *)
Definition preSaveOrderNumber (isNew : bool) (now : Date) (count : nat)
    (this : t) : t :=
  if isNew then
    mk (_id this) (Some (now, S count)) (user this) (items this)
       (shippingAddress this) (billingAddress this) (paymentMethod this)
       (paymentStatus this) (paymentId this) (orderStatus this)
       (subtotal this) (taxAmount this) (shippingAmount this)
       (discountAmount this) (totalAmount this) (coupon this) (notes this)
       (trackingNumber this) (shippingCarrier this) (deliveredAt this)
       (cancelledAt this) (cancellationReason this) (statusHistory this)
  else this.

(** The update document handed to [findByIdAndUpdate]: a path is set
    when its entry is [Some]. *)
Record update := mkUpdate {
  setOrderStatus : option string;
  setPaymentStatus : option string;
  setPaymentId : option string;
  setTrackingNumber : option string;
  setShippingCarrier : option string;
  setNotes : option string;
  setDeliveredAt : option Date;
  setCancelledAt : option Date;
  setCancellationReason : option string
}.

(** [runValidators: true]: the enum validators of the paths that are set. *)
Definition validateUpdate (u : update) : bool :=
  match setOrderStatus u with
  | Some s => inEnum orderStatusEnum s
  | None => true
  end
  && match setPaymentStatus u with
     | Some s => inEnum paymentStatusEnum s
     | None => true
     end.

Definition orElse {A} (new : option A) (old : option A) : option A :=
  match new with
  | Some x => Some x
  | None => old
  end.

Definition applyUpdate (u : update) (this : t) : t :=
  mk (_id this) (orderNumber this) (user this) (items this)
     (shippingAddress this) (billingAddress this) (paymentMethod this)
     (default (paymentStatus this) (setPaymentStatus u))
     (orElse (setPaymentId u) (paymentId this))
     (default (orderStatus this) (setOrderStatus u))
     (subtotal this) (taxAmount this) (shippingAmount this)
     (discountAmount this) (totalAmount this) (coupon this)
     (orElse (setNotes u) (notes this))
     (orElse (setTrackingNumber u) (trackingNumber this))
     (orElse (setShippingCarrier u) (shippingCarrier this))
     (orElse (setDeliveredAt u) (deliveredAt this))
     (orElse (setCancelledAt u) (cancelledAt this))
     (orElse (setCancellationReason u) (cancellationReason this))
     (statusHistory this).

End Order.

(** ** Users *)

Module User.
Record t := mk {
  firstName : string;
  lastName : string;
  email : string;
  role : string;
  isActive : bool
}.
End User.

(** What [populate("user", "firstName lastName email")] puts in the
    place of a user id: the selected paths of the user document. *)
Module UserRef.
Record t := mk {
  _id : ObjectId;
  firstName : string;
  lastName : string;
  email : string
}.
End UserRef.

(** An order whose [user] path has been populated: the document, and the
    value now found at [order.user] (null when no such user is stored). *)
Module Populated.
Record t := mk {
  order : Order.t;
  user : option UserRef.t
}.
End Populated.

(** ** Messages, store and effects *)

Inductive Analytics :=
| NewOrder (orderId : ObjectId) (orderNumber : option Order.number)
           (totalAmount : Q) (itemCount : nat) (user : option UserRef.t)
           (status : string)
| StockChanged (productId : ObjectId) (stock previousStock : Z)
               (isInStock lowStock : bool) (stockChange : Z)
| OrderStatusChange (orderId : ObjectId) (orderNumber : option Order.number)
                    (oldStatus newStatus : string) (totalAmount : Q)
                    (user : option UserRef.t)
| PaymentStatusChange (orderId : ObjectId) (orderNumber : option Order.number)
                      (oldPaymentStatus newPaymentStatus : string)
                      (totalAmount : Q).

Inductive Event :=
| StockUpdate (productId : ObjectId) (stock previousStock : Z)
              (isInStock lowStock : bool) (stockChange : Z)
| LowStockAlert (productId : ObjectId) (name : string) (stock threshold : Z)
| OrderUpdate (orderId : ObjectId) (orderNumber : option Order.number)
              (oldStatus newStatus : string) (totalAmount : Q)
              (user : option UserRef.t)
| PaymentUpdate (orderId : ObjectId) (orderNumber : option Order.number)
                (oldPaymentStatus newPaymentStatus : string) (totalAmount : Q)
| AdminAnalytics (data : Analytics).

(** The rooms the emit helpers address.  The name of a user's room
    interpolates the value the helper is called with. *)
Inductive Room :=
| ProductRoom (productId : ObjectId)
| UserOrdersRoom (userId : option UserRef.t)
| AdminOrdersRoom
| AdminAnalyticsRoom.

Record Message := mkMessage {
  room : Room;
  event : string;
  data : Event
}.

Record World := mkWorld {
  products : gmap ObjectId Product.t;
  coupons : gmap string Coupon.t;
  orders : list Order.t;
  users : gmap ObjectId User.t;
  io : bool;
  emitted : list Message
}.

Definition withProducts (w : World) (ps : gmap ObjectId Product.t) : World :=
  mkWorld ps (coupons w) (orders w) (users w) (io w) (emitted w).

Definition withCoupons (w : World) (cs : gmap string Coupon.t) : World :=
  mkWorld (products w) cs (orders w) (users w) (io w) (emitted w).

Definition withOrders (w : World) (os : list Order.t) : World :=
  mkWorld (products w) (coupons w) os (users w) (io w) (emitted w).

Definition withEmitted (w : World) (ms : list Message) : World :=
  mkWorld (products w) (coupons w) (orders w) (users w) (io w) ms.

Inductive Exn :=
| ValidationError (model : string)
| TypeError.

(** Computations that read and write the store, send messages, and may
    throw.  The store reached at the throw is kept. *)
Definition M (A : Type) : Type := World -> World * (Exn + A).

#[global] Instance M_ret : MRet M := fun A a w => (w, inr a).
#[global] Instance M_bind : MBind M := fun A B f m w =>
  match m w with
  | (w', inr a) => f a w'
  | (w', inl e) => (w', inl e)
  end.

Definition throw {A} (e : Exn) : M A := fun w => (w, inl e).

Fixpoint forEach {A} (l : list A) (body : A -> M unit) : M unit :=
  match l with
  | [] => mret tt
  | x :: r => _ ← body x; forEach r body
  end.

(** *** The emit helpers *)

(** [io.to(room).emit(event, data)]. *)
Definition send (r : Room) (e : string) (d : Event) : M unit := fun w =>
  (withEmitted w (emitted w ++ [mkMessage r e d]), inr tt).

(** [const io = global.io; if (io) { ... }]. *)
Definition ifIo (body : M unit) : M unit := fun w =>
  if io w then body w else (w, inr tt).

Definition emitStockUpdate (productId : ObjectId) (stockData : Event)
    : M unit :=
  ifIo (send (ProductRoom productId) "stock_updated" stockData).

Definition emitOrderUpdate (userId : option UserRef.t) (orderData : Event)
    : M unit :=
  ifIo (_ ← send (UserOrdersRoom userId) "order_updated" orderData;
        send AdminOrdersRoom "new_order_update" orderData).

Definition emitAdminAnalytics (analyticsData : Analytics) : M unit :=
  ifIo (send AdminAnalyticsRoom "analytics_update"
          (AdminAnalytics analyticsData)).

Definition emitLowStockAlert (productData : Event) : M unit :=
  ifIo (send AdminAnalyticsRoom "low_stock_alert" productData).

(** *** Storage primitives *)

Definition Product_findById (id : ObjectId) : M (option Product.t) :=
  fun w => (w, inr (products w !! id)).

Definition Product_save (id : ObjectId) (p : Product.t) : M unit := fun w =>
  if Product.validate p then
    (withProducts w (<[id := p]> (products w)), inr tt)
  else (w, inl (ValidationError "Product")).

Definition Coupon_findOne (code : string) : M (option Coupon.t) :=
  fun w => (w, inr (coupons w !! code)).

Definition Coupon_save (c : Coupon.t) : M unit := fun w =>
  if Coupon.validate c then
    (withCoupons w (<[Coupon.code c := c]> (coupons w)), inr tt)
  else (w, inl (ValidationError "Coupon")).

(** [Coupon.findOneAndUpdate({code, "usageHistory.order": null},
    {$set: {"usageHistory.$.order": id}})]. *)
Definition Coupon_setUsageOrder (code : string) (id : ObjectId) : M unit :=
  fun w =>
    match coupons w !! code with
    | Some c =>
        match Coupon.setFirstNullOrder (Coupon.usageHistory c) id with
        | Some h =>
            (withCoupons w (<[code := Coupon.withHistory c h]> (coupons w)),
             inr tt)
        | None => (w, inr tt)
        end
    | None => (w, inr tt)
    end.

(** [Order.create(doc)]: the new document receives its [_id]; [save]
    runs the validators, then the two [pre("save")] hooks with [isNew]
    set, then inserts.  A document the validators reject never reaches
    the hooks. *)
Definition Order_create (now : Date) (doc : Order.t) : M Order.t := fun w =>
  let doc := Order.withId (length (orders w)) doc in
  if Order.validate doc then
    let doc := Order.preSaveOrderNumber true now (length (orders w)) doc in
    let doc := Order.preSaveStatusHistory true true now doc in
    (withOrders w (orders w ++ [doc]), inr doc)
  else (w, inl (ValidationError "Order")).

Definition Order_findById (id : ObjectId) : M (option Order.t) :=
  fun w => (w, inr (orders w !! id)).

(** [Order.findByIdAndUpdate(id, update, {new: true, runValidators: true})].
    No [save] hook runs on this path.  The controllers dereference the
    result, so an absent document surfaces as a [TypeError]. *)
Definition Order_findByIdAndUpdate (id : ObjectId) (u : Order.update)
    : M Order.t :=
  fun w =>
    if Order.validateUpdate u then
      match orders w !! id with
      | Some o =>
          let o' := Order.applyUpdate u o in
          (withOrders w (<[id := o']> (orders w)), inr o')
      | None => (w, inl TypeError)
      end
    else (w, inl (ValidationError "Order")).

(** The selected paths of the user stored under [id], if any. *)
Definition userRef (us : gmap ObjectId User.t) (id : ObjectId)
    : option UserRef.t :=
  (fun u => UserRef.mk id (User.firstName u) (User.lastName u) (User.email u))
    <$> us !! id.

(** [.populate("user", "firstName lastName email")]. *)
Definition populate (order : Order.t) : M Populated.t := fun w =>
  (w, inr (Populated.mk order (userRef (users w) (Order.user order)))).

(** ** Realtime event handlers *)

(** [handleStockChange(productId, oldStock, newStock, product)]. *)
Definition handleStockChange (productId : ObjectId) (oldStock newStock : Z)
    (product : Product.t) : M unit :=
  let isInStock := Product.isInStock product 1 in
  let lowStock := newStock <=? Product.lowStockThreshold product in
  let stockChange := newStock - oldStock in
  _ ← emitStockUpdate productId
        (StockUpdate productId newStock oldStock isInStock lowStock
           stockChange);
  _ ← (if (newStock <=? Product.lowStockThreshold product)
          && (Product.lowStockThreshold product <? oldStock)
       then emitLowStockAlert
              (LowStockAlert productId (Product.name product) newStock
                 (Product.lowStockThreshold product))
       else mret tt);
  emitAdminAnalytics
    (StockChanged productId newStock oldStock isInStock lowStock stockChange).

(** [handleOrderStatusChange(order, oldStatus, newStatus)]; the helper is
    called with [order.user]. *)
Definition handleOrderStatusChange (order : Populated.t)
    (oldStatus newStatus : string) : M unit :=
  let o := Populated.order order in
  _ ← emitOrderUpdate (Populated.user order)
        (OrderUpdate (Order._id o) (Order.orderNumber o) oldStatus newStatus
           (Order.totalAmount o) (Populated.user order));
  emitAdminAnalytics
    (OrderStatusChange (Order._id o) (Order.orderNumber o) oldStatus
       newStatus (Order.totalAmount o) (Populated.user order)).

(** [handlePaymentStatusChange(order, oldStatus, newStatus)]. *)
Definition handlePaymentStatusChange (order : Populated.t)
    (oldStatus newStatus : string) : M unit :=
  let o := Populated.order order in
  _ ← emitOrderUpdate (Populated.user order)
        (PaymentUpdate (Order._id o) (Order.orderNumber o) oldStatus
           newStatus (Order.totalAmount o));
  emitAdminAnalytics
    (PaymentStatusChange (Order._id o) (Order.orderNumber o) oldStatus
       newStatus (Order.totalAmount o)).

(** The loop body of [handleNewOrder] ("Update stock for ordered items")
    makes two storage round trips: [updateStockFor] loads the product,
    and [writeStock] saves the decremented document and announces the
    change. *)
Definition writeStock (item : OrderItem.t) (product : option Product.t)
    : M unit :=
  match product with
  | Some product =>
      if Product.trackQuantity product then
        let oldStock := Product.stock product in
        let product := Product.sell product (OrderItem.quantity item) in
        _ ← Product_save (OrderItem.product item) product;
        handleStockChange (OrderItem.product item) oldStock
          (Product.stock product) product
      else mret tt
  | None => mret tt
  end.

Definition updateStockFor (item : OrderItem.t) : M unit :=
  product ← Product_findById (OrderItem.product item);
  writeStock item product.

(** [handleNewOrder(order)]. *)
Definition handleNewOrder (order : Populated.t) : M unit :=
  let o := Populated.order order in
  _ ← emitAdminAnalytics
        (NewOrder (Order._id o) (Order.orderNumber o) (Order.totalAmount o)
           (length (Order.items o)) (Populated.user order)
           (Order.orderStatus o));
  forEach (Order.items o) updateStockFor.

(** ** Order controller (controllers/orderController.js) *)

Module Item.
Record t := mk {
  product : ObjectId;
  quantity : Z;
  variant : option (string * string)
}.
End Item.

Module Body.
Record t := mk {
  items : list Item.t;
  shippingAddress : option Address.t;
  billingAddress : option Address.t;
  paymentMethod : string;
  couponCode : option string;
  notes : option string
}.
End Body.

Inductive OrderError :=
| ProductNotFound (id : ObjectId)
| ProductNotAvailable (name : string)
| InsufficientStock (name : string)
| InvalidCoupon
| OrderNotFound
| InternalError (e : Exn).

Inductive Response :=
| Created (order : Order.t)
| Updated (order : Order.t)
| Failed (e : OrderError).

(** The [try]/[catch] around a controller body. *)
Definition tryCatch (body : M Response) (w : World) : World * Response :=
  match body w with
  | (w', inr r) => (w', r)
  | (w', inl e) => (w', Failed (InternalError e))
  end.

(** "Validate items and calculate totals": the [for] loop of
    [createOrder], with its accumulators [subtotal] and [orderItems]. *)
Fixpoint validateItems (ps : gmap ObjectId Product.t) (items : list Item.t)
    (subtotal : Q) (orderItems : list OrderItem.t)
    : OrderError + (Q * list OrderItem.t) :=
  match items with
  | [] => inr (subtotal, orderItems)
  | item :: rest =>
      match ps !! Item.product item with
      | None => inl (ProductNotFound (Item.product item))
      | Some product =>
          if negb (Product.isActive product) then
            inl (ProductNotAvailable (Product.name product))
          else if negb (Product.isInStock product (Item.quantity item)) then
            inl (InsufficientStock (Product.name product))
          else
            let itemTotal :=
              (Product.price product * inject_Z (Item.quantity item))%Q in
            validateItems ps rest (subtotal + itemTotal)%Q
              (orderItems ++
                 [OrderItem.mk (Item.product item) (Product.name product)
                    (hd ""%string (Product.images product))
                    (Product.price product) (Item.quantity item)
                    (Item.variant item) (Product.sku product)])
      end
  end.

(** What the coupon step has in hand when it calls [coupon.save()]: the
    discount, the coupon data of the order, and the coupon document with
    "Update coupon usage" applied. *)
Definition useCoupon (userId : ObjectId) (now : Date) (coupon : Coupon.t)
    (subtotal : Q) (orderItems : list OrderItem.t)
    : Q * CouponData.t * Coupon.t :=
  let discountAmount :=
    Coupon.calculateDiscount coupon now subtotal orderItems in
  (discountAmount,
   CouponData.mk (Coupon.code coupon) (Coupon.discountType coupon)
     (Coupon.discountValue coupon),
   Coupon.recordUsage coupon (Usage.mk userId None discountAmount now)).

(** "Apply coupon if provided", including "Update coupon usage". *)
Definition applyCoupon (userId : ObjectId) (now : Date)
    (couponCode : option string) (subtotal : Q)
    (orderItems : list OrderItem.t)
    : M (OrderError + (Q * option CouponData.t)) :=
  match couponCode with
  | Some code =>
      if truthyS (Some code) then
        coupon ← Coupon_findOne (toUpperCase code);
        match coupon with
        | None => mret (inl InvalidCoupon)
        | Some coupon =>
            if negb (Coupon.canUserUse coupon userId now) then
              mret (inl InvalidCoupon)
            else
              let '(discountAmount, couponData, coupon) :=
                useCoupon userId now coupon subtotal orderItems in
              _ ← Coupon_save coupon;
              mret (inr (discountAmount, Some couponData))
        end
      else mret (inr (0%Q, None))
  | None => mret (inr (0%Q, None))
  end.

(** The document [createOrder] hands to [Order.create]: the paths it
    sets, and the schema defaults of the others.  [orderNumber] is not
    among the paths it sets. *)
Definition orderDocument (userId : ObjectId) (body : Body.t)
    (orderItems : list OrderItem.t)
    (subtotal taxAmount shippingAmount discountAmount totalAmount : Q)
    (couponData : option CouponData.t) : Order.t :=
  Order.mk 0%nat None userId orderItems (Body.shippingAddress body)
    (Body.billingAddress body) (Body.paymentMethod body) "pending" None
    "pending" subtotal taxAmount shippingAmount discountAmount totalAmount
    couponData (Body.notes body) None None None None None [].

(** [createOrder] up to and including "Update coupon with order ID". *)
Definition placeOrder (userId : ObjectId) (now : Date) (body : Body.t)
    : M (OrderError + Order.t) :=
  fun w =>
    match validateItems (products w) (Body.items body) 0%Q [] with
    | inl e => (w, inr (inl e))
    | inr (subtotal, orderItems) =>
        (c ← applyCoupon userId now (Body.couponCode body) subtotal orderItems;
         match c with
         | inl e => mret (inl e)
         | inr (discountAmount, couponData) =>
             let taxAmount := 0%Q in
             let shippingAmount := 0%Q in
             let totalAmount :=
               (subtotal + taxAmount + shippingAmount - discountAmount)%Q in
             order ← Order_create now
                       (orderDocument userId body orderItems subtotal
                          taxAmount shippingAmount discountAmount totalAmount
                          couponData);
             _ ← match Body.couponCode body, couponData with
                 | Some code, Some _ =>
                     if truthyS (Some code) then
                       Coupon_setUsageOrder (toUpperCase code) (Order._id order)
                     else mret tt
                 | _, _ => mret tt
                 end;
             mret (inr order)
         end) w
    end.

(** The rest of [createOrder]: "Populate order with user details", "Emit
    real-time events" and the 201 answer. *)
Definition finishOrder (r : OrderError + Order.t) : M Response :=
  match r with
  | inl e => mret (Failed e)
  | inr order =>
      populated ← populate order;
      _ ← handleNewOrder populated;
      mret (Created order)
  end.

Definition createOrder (userId : ObjectId) (now : Date) (body : Body.t)
    : World -> World * Response :=
  tryCatch (r ← placeOrder userId now body; finishOrder r).

Module StatusBody.
Record t := mk {
  orderStatus : string;
  trackingNumber : option string;
  shippingCarrier : option string;
  notes : option string
}.
End StatusBody.

Definition keepTruthy (s : option string) : option string :=
  if truthyS s then s else None.

Definition updateOrderStatus (id : ObjectId) (now : Date)
    (body : StatusBody.t) : World -> World * Response :=
  tryCatch
    (order ← Order_findById id;
     match order with
     | None => mret (Failed OrderNotFound)
     | Some order =>
         let orderStatus := StatusBody.orderStatus body in
         let oldStatus := Order.orderStatus order in
         let updateData :=
           Order.mkUpdate (Some orderStatus) None None
             (keepTruthy (StatusBody.trackingNumber body))
             (keepTruthy (StatusBody.shippingCarrier body))
             (keepTruthy (StatusBody.notes body))
             (if String.eqb orderStatus "delivered" then Some now else None)
             (if String.eqb orderStatus "cancelled" then Some now else None)
             (if String.eqb orderStatus "cancelled"
              then keepTruthy (StatusBody.notes body) else None) in
         updatedOrder ← Order_findByIdAndUpdate id updateData;
         populated ← populate updatedOrder;
         _ ← handleOrderStatusChange populated oldStatus orderStatus;
         mret (Updated updatedOrder)
     end).

Module PaymentBody.
Record t := mk {
  paymentStatus : string;
  paymentId : option string
}.
End PaymentBody.

Definition updatePaymentStatus (id : ObjectId) (body : PaymentBody.t)
    : World -> World * Response :=
  tryCatch
    (order ← Order_findById id;
     match order with
     | None => mret (Failed OrderNotFound)
     | Some order =>
         let paymentStatus := PaymentBody.paymentStatus body in
         let oldPaymentStatus := Order.paymentStatus order in
         updatedOrder ← Order_findByIdAndUpdate id
                          (Order.mkUpdate None (Some paymentStatus)
                             (PaymentBody.paymentId body)
                             None None None None None None);
         populated ← populate updatedOrder;
         _ ← handlePaymentStatusChange populated oldPaymentStatus
               paymentStatus;
         mret (Updated updatedOrder)
     end).
(** * Properties *)

(** ** Vocabulary of the statements *)

(** The messages a step sent. *)
Definition newMessages (w w' : World) : list Message :=
  drop (length (emitted w)) (emitted w').

Definition isLowStockAlert (m : Message) : bool :=
  match data m with
  | LowStockAlert _ _ _ _ => true
  | _ => false
  end.

Definition alertsIn (l : list Message) : list Message :=
  List.filter isLowStockAlert l.

(** The message [emitLowStockAlert] sends. *)
Definition lowStockMessage (productId : ObjectId) (p : Product.t)
    (newStock : Z) : Message :=
  mkMessage AdminAnalyticsRoom "low_stock_alert"
    (LowStockAlert productId (Product.name p) newStock
       (Product.lowStockThreshold p)).

(** The store after the helpers were handed the messages [l]: they are
    sent when [global.io] holds a socket server, and dropped otherwise. *)
Definition sent (w : World) (l : list Message) : World :=
  if io w then withEmitted w (emitted w ++ l) else w.

(** The messages of one status or payment update: the two of
    [emitOrderUpdate] and the one of [emitAdminAnalytics]. *)
Definition updateMessages (user : option UserRef.t) (orderData : Event)
    (analyticsData : Analytics) : list Message :=
  [mkMessage (UserOrdersRoom user) "order_updated" orderData;
   mkMessage AdminOrdersRoom "new_order_update" orderData;
   mkMessage AdminAnalyticsRoom "analytics_update"
     (AdminAnalytics analyticsData)].

(** The messages of one stock change. *)
Definition stockMessages (productId : ObjectId) (oldStock newStock : Z)
    (p : Product.t) : list Message :=
  [mkMessage (ProductRoom productId) "stock_updated"
     (StockUpdate productId newStock oldStock (Product.isInStock p 1)
        (newStock <=? Product.lowStockThreshold p) (newStock - oldStock))]
  ++ (if (newStock <=? Product.lowStockThreshold p)
         && (Product.lowStockThreshold p <? oldStock)
      then [lowStockMessage productId p newStock]
      else [])
  ++ [mkMessage AdminAnalyticsRoom "analytics_update"
        (AdminAnalytics
           (StockChanged productId newStock oldStock (Product.isInStock p 1)
              (newStock <=? Product.lowStockThreshold p)
              (newStock - oldStock)))].

(** The same store with a socket server registered in [global.io]. *)
Definition listening (w : World) : World :=
  mkWorld (products w) (coupons w) (orders w) (users w) true (emitted w).

(** Sum over the line items of unit price times quantity, in the order
    of the items. *)
Definition lineSum (items : list OrderItem.t) : Q :=
  fold_left
    (fun acc it => (acc + OrderItem.price it * inject_Z (OrderItem.quantity it))%Q)
    items 0%Q.


(** The edge sets of the specification's state machine (section 4.3),
    following the specification's words; the source has no counterpart. *)
Definition allowedOrderEdge (from to : string) : bool :=
  existsb (fun e => String.eqb (fst e) from && String.eqb (snd e) to)
    [("pending", "confirmed"); ("confirmed", "processing");
     ("processing", "shipped"); ("shipped", "delivered");
     ("pending", "cancelled"); ("confirmed", "cancelled");
     ("processing", "cancelled"); ("delivered", "returned")]%string.

Definition allowedPaymentEdge (from to : string) : bool :=
  existsb (fun e => String.eqb (fst e) from && String.eqb (snd e) to)
    [("pending", "paid"); ("pending", "failed"); ("paid", "refunded");
     ("paid", "partially_refunded")]%string.

(** The discount as the specification words it (section 4.2): percentage
    of the amount or the flat value, capped at the maximum when one is
    present, then capped at the amount. *)
Definition specDiscount (c : Coupon.t) (orderAmount : Q) : Q :=
  let base :=
    if String.eqb (Coupon.discountType c) "percentage"
    then (orderAmount * Coupon.discountValue c / 100)%Q
    else Coupon.discountValue c in
  let capped :=
    match Coupon.maximumDiscountAmount c with
    | Some m => Qmin base m
    | None => base
    end in
  Qmin capped orderAmount.

(** The same with the cap applied only for a maximum that is present and
    not zero. *)
Definition cappedDiscount (c : Coupon.t) (orderAmount : Q) : Q :=
  let base :=
    if String.eqb (Coupon.discountType c) "percentage"
    then (orderAmount * Coupon.discountValue c / 100)%Q
    else Coupon.discountValue c in
  let capped :=
    match Coupon.maximumDiscountAmount c with
    | Some m => if Qeq_bool m 0 then base else Qmin base m
    | None => base
    end in
  Qmin capped orderAmount.

(** ** Interleaved runs *)

(** Two stock updates whose round trips interleave: both load the product
    before either saves it. *)
Definition updateStockFor_overlapped (item1 item2 : OrderItem.t) : M unit :=
  product1 ← Product_findById (OrderItem.product item1);
  product2 ← Product_findById (OrderItem.product item2);
  _ ← writeStock item1 product1;
  writeStock item2 product2.

(** ** Sample data *)

Module Sample.

Definition address : Address.t :=
  Address.mk "Ada" "Byron" None "1 Main Road" None "Leeds" "WY" "LS1"
    "UK" None.

Definition widget (price : Q) (stock : Z) (track backorder : bool)
    : Product.t :=
  Product.mk "Widget" "W-1" [] price stock 10 track backorder true 0.

Definition customer : ObjectId := 7%nat.
Definition noon : Date := 1000.

(** The users 7 and 8. *)
Definition people : gmap ObjectId User.t :=
  <[7%nat := User.mk "Ada" "Byron" "ada@example.org" "customer" true]>
    (<[8%nat := User.mk "Bob" "Stone" "bob@example.org" "customer" true]> ∅).

(** A store with the single product 1, as the server starts it: nothing
    is registered in [global.io]. *)
Definition shop (p : Product.t) : World :=
  mkWorld (<[1%nat := p]> ∅) ∅ [] people false [].

Definition line (quantity : Z) : Item.t := Item.mk 1%nat quantity None.

Definition body (items : list Item.t) (couponCode : option string)
    : Body.t :=
  Body.mk items (Some address) (Some address) "paypal" couponCode None.

(** The coupon of the specification's scenario: 10 percent, minimum
    order 50, maximum discount 20. *)
Definition SAVE10 : Coupon.t :=
  Coupon.mk "SAVE10" "percentage" 10 50 (Some 20%Q) None None 0 true
    0 2000 [] [] [] [].

(** A 10 percent coupon whose maximum discount is present and zero. *)
Definition ZEROCAP : Coupon.t :=
  Coupon.mk "ZEROCAP" "percentage" 10 0 (Some 0%Q) None None 0 true
    0 2000 [] [] [] [].

Definition couponShop (p : Product.t) : World :=
  mkWorld (<[1%nat := p]> ∅) (<["SAVE10"%string := SAVE10]> ∅) [] people
    false [].

(** A stored order of [customer], pending and unpaid, with [_id] 0. *)
Definition order (items : list OrderItem.t) (subtotal : Q) : Order.t :=
  Order.mk 0%nat (Some (noon, 1%nat)) customer items (Some address)
    (Some address) "paypal" "pending" None "pending" subtotal 0 0 0
    subtotal None None None None None None None [].

Definition unit (quantity : Z) : OrderItem.t :=
  OrderItem.mk 1%nat "Widget" "" 40 quantity None "W-1".

(** A stored order with its user populated from [people]. *)
Definition populated (o : Order.t) : Populated.t :=
  Populated.mk o (userRef people (Order.user o)).

End Sample.

(** ** Sample orders *)

(** A shop with 12 widgets at 5/2, and an order of two lines, 3 and 1. *)
Definition twoLineShop : World := Sample.shop (Sample.widget (5 # 2) 12 true false).

Definition twoLineBody : Body.t :=
  Sample.body [Sample.line 3; Sample.line 1] None.

(** The line records the item loop builds for that request. *)
Definition twoLines : list OrderItem.t :=
  [OrderItem.mk 1%nat "Widget" "" (5 # 2) 3 None "W-1";
   OrderItem.mk 1%nat "Widget" "" (5 # 2) 1 None "W-1"].

(** A stored order of those two lines, with its user populated. *)
Definition twoLineOrder : Populated.t :=
  Sample.populated (Sample.order twoLines 10).

(** An order for widgets with the code of the sample coupon, in lower
    case as a client may send it. *)
Definition couponBody (quantity : Z) : Body.t :=
  Sample.body [Sample.line quantity] (Some "save10"%string).

Definition couponWorld : World :=
  Sample.couponShop (Sample.widget 40 100 true false).

(** One widget at 40 ordered by the sample customer: order 0, pending and
    unpaid, with an empty status history. *)
Definition pendingOrder : Order.t := Sample.order [Sample.unit 1] 40.

(** The sample shop holding that order. *)
Definition shopWithOrder : World :=
  withOrders (Sample.shop (Sample.widget 40 5 true false)) [pendingOrder].

Definition statusRequest (s : string) : StatusBody.t :=
  StatusBody.mk s None None None.

Definition paymentRequest (s : string) : PaymentBody.t :=
  PaymentBody.mk s None.

(** * Coupons, listings, reviews, sockets and categories

    The embedding continues with
      - [validateCoupon] of the coupon controller,
      - the pagination of the listing endpoints,
      - the slug hook, [updateRating], [discountPercentage] and
        [addReview] of the product model and controller,
      - [createSocketRateLimiter] and the rooms of [setupSocketIO],
      - [deleteCategory] and [getCategoryTree].

    Further conventions.
      - A collection a function only queries is an argument of the
        function; a sorted query result is the list the query returned.
      - A socket's [rooms] are the rooms this code has joined; the room
        the socket library opens under the socket's own id is not
        represented.
      - An object graph built from references is a map from reference to
        object; serialising it follows the references for a given number
        of levels. *)

(** ** Coupon controller (controllers/couponController.js) *)

Inductive CouponAnswer :=
| CouponNotFound
| CouponExpired
| CouponNotForUser
| MinimumRequired (minimumOrderAmount : Q)
| CouponAccepted (coupon : CouponData.t) (discountAmount finalAmount : Q).

(** [validateCoupon]: the standalone check of a code before checkout.  It
    only reads the store.  The coupon's display name, which the answer
    repeats, is not part of the coupon model. *)
Definition validateCoupon (userId : ObjectId) (now : Date) (code : string)
    (orderAmount : Q) (items : list Item.t) (w : World) : CouponAnswer :=
  match coupons w !! toUpperCase code with
  | None => CouponNotFound
  | Some coupon =>
      if negb (Coupon.isValid coupon now) then CouponExpired
      else if negb (Coupon.canUserUse coupon userId now) then CouponNotForUser
      else
        let discountAmount :=
          Coupon.calculateDiscount coupon now orderAmount items in
        if Qeq_bool discountAmount 0 then
          MinimumRequired (Coupon.minimumOrderAmount coupon)
        else
          CouponAccepted
            (CouponData.mk (Coupon.code coupon) (Coupon.discountType coupon)
               (Coupon.discountValue coupon))
            discountAmount (Qmax 0 (orderAmount - discountAmount))
  end.

(** The amount a coupon's rule yields before the cap at the amount it
    applies to: the percentage or the flat value, under the maximum. *)
Definition rawDiscount (c : Coupon.t) (applicableAmount : Q) : Q :=
  let discountAmount :=
    if String.eqb (Coupon.discountType c) "percentage"
    then (applicableAmount * Coupon.discountValue c / 100)%Q
    else Coupon.discountValue c in
  match Coupon.maximumDiscountAmount c with
  | Some m =>
      if truthyQ (Some m) && Qltb m discountAmount then m else discountAmount
  | None => discountAmount
  end.

(** The coupon respects the minima its schema declares. *)
Definition schemaValues (c : Coupon.t) : Prop :=
  (0 <= Coupon.discountValue c)%Q
  /\ match Coupon.maximumDiscountAmount c with
     | Some m => (0 <= m)%Q
     | None => True
     end.

(** ** Order model, continued (models/Order.js) *)

(** [orderSchema.virtual("totalItems")]. *)
Definition totalItems (this : Order.t) : Z :=
  fold_left (fun total item => total + OrderItem.quantity item)
    (Order.items this) 0.

(** ** Further sample data *)

(** The sample coupon restricted to product 1, under its own code. *)
Definition ONLY1 : Coupon.t :=
  Coupon.mk "ONLY1" "percentage" 10 50 (Some 20%Q) None None 0 true
    0 2000 [1%nat] [] [] [].

Definition restrictedWorld : World :=
  mkWorld (<[1%nat := Sample.widget 40 100 true false]> ∅)
    (<["ONLY1"%string := ONLY1]> ∅) [] Sample.people false [].

(** ** Vocabulary of the further statements *)

Definition isInternal (e : OrderError) : bool :=
  match e with
  | InternalError _ => true
  | _ => false
  end.

(** The three checks [createOrder] makes on one requested line. *)
Definition lineError (ps : gmap ObjectId Product.t) (item : Item.t)
    : option OrderError :=
  match ps !! Item.product item with
  | None => Some (ProductNotFound (Item.product item))
  | Some p =>
      if negb (Product.isActive p) then Some (ProductNotAvailable (Product.name p))
      else if negb (Product.isInStock p (Item.quantity item))
      then Some (InsufficientStock (Product.name p))
      else None
  end.

(** A stored line is the snapshot of a requested line. *)
Definition snapshotOf (ps : gmap ObjectId Product.t) (item : Item.t)
    (line : OrderItem.t) : Prop :=
  exists p,
    ps !! Item.product item = Some p
    /\ Product.isActive p = true
    /\ line = OrderItem.mk (Item.product item) (Product.name p)
                (hd ""%string (Product.images p)) (Product.price p)
                (Item.quantity item) (Item.variant item) (Product.sku p).

(** ** Pagination of the listing endpoints

    [getUserOrders], [getAllOrders], [getProducts], [getCategoryProducts]
    and the admin listings compute the same quantities from the [page]
    and [limit] of the query and the [total] the filter counts. *)

Module Page.

(** [const skip = (Number(page) - 1) * Number(limit)]. *)
Definition skip (page limit : Z) : Z := (page - 1) * limit.

Record t := mk {
  currentPage : Z;
  totalPages : option Z;
  totalCount : Z;
  hasNextPage : bool;
  hasPrevPage : bool
}.

(** The [pagination] object of the answer.  [Math.ceil(total / limit)] is
    a number of pages only for a [limit] other than 0; otherwise it is
    [Infinity] or [NaN], kept as [None]. *)
Definition pagination (page limit total : Z) : t :=
  mk page
     (if limit =? 0 then None
      else Some (Qceiling (inject_Z total / inject_Z limit)))
     total
     (skip page limit + limit <? total)
     (1 <? page).

(** [.skip(skip).limit(limit)] on the documents the query found, for a
    skip that is not negative and a positive limit; what the database
    does with other values is not represented ([None]). *)
Definition slice {A} (found : list A) (page limit : Z) : option (list A) :=
  if (0 <=? skip page limit) && (0 <? limit) then
    Some (take (Z.to_nat limit) (drop (Z.to_nat (skip page limit)) found))
  else None.

End Page.

(** ** Slugs (the [pre("save")] hook of models/Product.js and of the
    Category model)

    Strings are sequences of ASCII characters; the hook is followed on
    the list of characters of the name. *)

Module Slug.

Definition hyphen : ascii := "-"%char.

Definition isHyphen (c : ascii) : bool := Ascii.eqb c hyphen.

Definition isDigit (c : ascii) : bool :=
  let n := nat_of_ascii c in ((48 <=? n) && (n <=? 57))%nat.

Definition isLower (c : ascii) : bool :=
  let n := nat_of_ascii c in ((97 <=? n) && (n <=? 122))%nat.

Definition isUpper (c : ascii) : bool :=
  let n := nat_of_ascii c in ((65 <=? n) && (n <=? 90))%nat.

(** [toLowerCase] on one character. *)
Definition downcase (c : ascii) : ascii :=
  if isUpper c then ascii_of_nat (nat_of_ascii c + 32) else c.

(** [.replace(/[^a-zA-Z0-9]/g, "-")] on one character. *)
Definition dash (c : ascii) : ascii :=
  if isLower c || isUpper c || isDigit c then c else hyphen.

(** [.replace(/-+/g, "-")]: every run of hyphens becomes one hyphen. *)
Fixpoint collapse (l : list ascii) : list ascii :=
  match l with
  | [] => []
  | c :: r =>
      if isHyphen c then
        match r with
        | c' :: _ => if isHyphen c' then collapse r else c :: collapse r
        | [] => [c]
        end
      else c :: collapse r
  end.

(** [.replace(/^-|-$/g, "")]: a hyphen at the start is removed, and a
    hyphen at the end of what is left. *)
Definition stripFirst (l : list ascii) : list ascii :=
  match l with
  | c :: r => if isHyphen c then r else l
  | [] => []
  end.

Definition stripLast (l : list ascii) : list ascii :=
  rev (stripFirst (rev l)).

Definition trim (l : list ascii) : list ascii := stripLast (stripFirst l).

Definition chars (name : list ascii) : list ascii :=
  trim (collapse (map dash (map downcase name))).

(** [this.slug = this.name.toLowerCase().replace(...).replace(...)
    .replace(...)]. *)
Definition slugify (name : string) : string :=
  String.string_of_list_ascii (chars (String.list_ascii_of_string name)).

(** The characters a slug is made of. *)
Definition slugChar (c : ascii) : bool := isLower c || isDigit c || isHyphen c.

Fixpoint noDoubleHyphen (l : list ascii) : bool :=
  match l with
  | c :: r =>
      match r with
      | c' :: _ => negb (isHyphen c && isHyphen c') && noDoubleHyphen r
      | [] => true
      end
  | [] => true
  end.

Definition startsWithHyphen (l : list ascii) : bool :=
  match l with
  | c :: _ => isHyphen c
  | [] => false
  end.

Definition endsWithHyphen (l : list ascii) : bool :=
  startsWithHyphen (rev l).

(** A well-formed slug: lower-case letters, digits and single hyphens,
    with no hyphen at either end. *)
Definition wellFormed (l : list ascii) : bool :=
  forallb slugChar l && noDoubleHyphen l
  && negb (startsWithHyphen l) && negb (endsWithHyphen l).

End Slug.

(** ** Reviews and ratings (models/Product.js,
    controllers/productController.js) *)

(** [Math.round]: the nearest integer, halves going up. *)
Definition jsRound (x : Q) : Z := Qfloor (x + (1 # 2)).

Module Review.
Record t := mk {
  user : ObjectId;
  rating : Q;
  comment : string;
  isVerifiedPurchase : bool
}.

(** [reviewSchema]: [rating] with [min: 1] and [max: 5]; [comment]
    required, at most 500 characters. *)
Definition validate (this : t) : bool :=
  Qle_bool 1 (rating this) && Qle_bool (rating this) 5
  && negb (String.eqb (comment this) "")
  && (String.length (comment this) <=? 500)%nat.
End Review.

(** The product document as the catalogue operations use it: the stock
    and price fields of [Product.t] with the review fields and the
    compare price beside them. *)
Module Listing.

Record t := mk {
  product : Product.t;
  comparePrice : option Q;
  reviews : list Review.t;
  averageRating : Q;
  totalReviews : Z
}.

Definition totalRating (rs : list Review.t) : Q :=
  fold_left (fun sum review => (sum + Review.rating review)%Q) rs 0%Q.

(** [productSchema.methods.updateRating]. *)
Definition updateRating (this : t) : t :=
  if (length (reviews this) =? 0)%nat then
    mk (product this) (comparePrice this) (reviews this) 0%Q 0
  else
    mk (product this) (comparePrice this) (reviews this)
       (inject_Z
          (jsRound
             (totalRating (reviews this)
              / inject_Z (Z.of_nat (length (reviews this))) * 10))
        / 10)%Q
       (Z.of_nat (length (reviews this))).

(** [productSchema.virtual("discountPercentage")]. *)
Definition discountPercentage (this : t) : Z :=
  match comparePrice this with
  | Some cp =>
      if truthyQ (Some cp) && Qltb (Product.price (product this)) cp then
        jsRound ((cp - Product.price (product this)) / cp * 100)
      else 0
  | None => 0
  end.

(** [product.reviews.push({user, rating, comment})]. *)
Definition pushReview (this : t) (r : Review.t) : t :=
  mk (product this) (comparePrice this) (reviews this ++ [r])
     (averageRating this) (totalReviews this).

(** The validators of the paths [addReview] modifies: the review
    sub-documents, and [averageRating] with [min: 0] and [max: 5]. *)
Definition validate (this : t) : bool :=
  forallb Review.validate (reviews this)
  && Qle_bool 0 (averageRating this) && Qle_bool (averageRating this) 5.

End Listing.

Inductive ReviewAnswer :=
| ReviewAdded (product : Listing.t)
| ReviewedProductMissing
| AlreadyReviewed
| ReviewFailed (e : Exn).

(** [addReview]. *)
Definition addReview (id userId : ObjectId) (rating : Q) (comment : string)
    (catalogue : gmap ObjectId Listing.t)
    : gmap ObjectId Listing.t * ReviewAnswer :=
  match catalogue !! id with
  | None => (catalogue, ReviewedProductMissing)
  | Some product =>
      match List.find (fun review => Nat.eqb (Review.user review) userId)
              (Listing.reviews product) with
      | Some _ => (catalogue, AlreadyReviewed)
      | None =>
          let product :=
            Listing.updateRating
              (Listing.pushReview product (Review.mk userId rating comment false)) in
          if Listing.validate product
          then (<[id := product]> catalogue, ReviewAdded product)
          else (catalogue, ReviewFailed (ValidationError "Product"))
      end
  end.

Definition ratingInRange (r : Review.t) : Prop :=
  (1 <= Review.rating r <= 5)%Q.

Definition sampleListing : Listing.t :=
  Listing.mk (Sample.widget 40 5 true false) (Some 50%Q)
    [Review.mk 7%nat 4 "Solid" false; Review.mk 8%nat 5 "Great" false]
    (9 # 2) 2.

Definition sampleCatalogue : gmap ObjectId Listing.t :=
  <[1%nat := sampleListing]> ∅.

(** ** Socket middleware and rooms ([createSocketRateLimiter],
    [setupSocketIO]) *)

Module RateLimit.

Record client := mkClient {
  count : Z;
  resetTime : Z
}.

Inductive verdict :=
| Passed
| RateLimitExceeded.

(** The closure returned by [createSocketRateLimiter(maxEvents, windowMs)];
    [clients] is the [Map] it captures, [clientId] is
    [socket.userId || socket.id] and [now] is [Date.now()]. *)
Definition limiter (maxEvents windowMs : Z) (clientId : string) (now : Z)
    (clients : gmap string client) : gmap string client * verdict :=
  match clients !! clientId with
  | None => (<[clientId := mkClient 1 (now + windowMs)]> clients, Passed)
  | Some client =>
      if resetTime client <? now then
        (<[clientId := mkClient 1 (now + windowMs)]> clients, Passed)
      else if maxEvents <=? count client then
        (clients, RateLimitExceeded)
      else
        (<[clientId := mkClient (count client + 1) (resetTime client)]> clients,
         Passed)
  end.

End RateLimit.

Module Socket.

(** The fields the connection handler reads, and the rooms it has put the
    socket in. *)
Record t := mk {
  userId : string;
  userRole : string;
  rooms : gset string
}.

Definition join (s : t) (room : string) : t :=
  mk (userId s) (userRole s) ({[ room ]} ∪ rooms s).

Definition leave (s : t) (room : string) : t :=
  mk (userId s) (userRole s) (rooms s ∖ {[ room ]}).

End Socket.

(** The events [setupSocketIO] listens to that touch the socket; each
    carries the value the client sent, as the string the template literal
    makes of it. *)
Inductive SocketEvent :=
| SubscribeProductStock (productId : string)
| UnsubscribeProductStock (productId : string)
| SubscribeAdminAnalytics.

(** [io.on("connection", ...)] up to the registration of the listeners. *)
Definition onConnection (socket : Socket.t) : Socket.t :=
  let socket := Socket.join socket ("user_" +:+ Socket.userId socket) in
  if String.eqb (Socket.userRole socket) "admin"
  then Socket.join socket "admin_room"
  else socket.

(** The listeners of [setupSocketIO]. *)
Definition onEvent (socket : Socket.t) (e : SocketEvent) : Socket.t :=
  match e with
  | SubscribeProductStock productId =>
      Socket.join socket ("product_" +:+ productId)
  | UnsubscribeProductStock productId =>
      Socket.leave socket ("product_" +:+ productId)
  | SubscribeAdminAnalytics =>
      if String.eqb (Socket.userRole socket) "admin"
      then Socket.join socket "admin_analytics"
      else socket
  end.

(** [global.emitOrderUpdate(userId, ...)] and [global.emitAdminAnalytics]
    address a room; a socket receives what is sent to a room it is in. *)
Definition orderUpdateRoom (userId : string) : string := "user_" +:+ userId.
Definition adminAnalyticsRoom : string := "admin_analytics".

(** ** Categories (models/Category.js, controllers/adminController.js) *)

Module Category.
Record t := mk {
  name : string;
  parent : option ObjectId;
  isActive : bool;
  sortOrder : Z
}.
End Category.

(** The paths of a product that refer to categories: [category]
    (required) and [subcategory]. *)
Module ProductRefs.
Record t := mk {
  category : ObjectId;
  subcategory : option ObjectId
}.
End ProductRefs.

(** The two collections [deleteCategory] queries: the categories, and of
    each product its category paths. *)
Record Catalogue := mkCatalogue {
  categories : gmap ObjectId Category.t;
  productRefs : gmap ObjectId ProductRefs.t
}.

Inductive DeleteAnswer :=
| CategoryDeleted
| CategoryHasProducts
| CategoryHasSubcategories.

(** [Model.countDocuments(filter)]. *)
Definition countDocuments {A} (P : A -> bool) (m : gmap ObjectId A) : Z :=
  Z.of_nat (length (List.filter (fun kv => P (snd kv)) (map_to_list m))).

(** [deleteCategory], for an [id] that is an ObjectId: the products are
    counted under the filter [{ category: id }], the categories under
    [{ parent: id }]. *)
Definition deleteCategory (id : ObjectId) (st : Catalogue)
    : Catalogue * DeleteAnswer :=
  let productCount :=
    countDocuments (fun p => Nat.eqb (ProductRefs.category p) id)
      (productRefs st) in
  if 0 <? productCount then (st, CategoryHasProducts)
  else
    let subcategoryCount :=
      countDocuments
        (fun c => match Category.parent c with
                  | Some p => Nat.eqb p id
                  | None => false
                  end)
        (categories st) in
    if 0 <? subcategoryCount then (st, CategoryHasSubcategories)
    else (mkCatalogue (delete id (categories st)) (productRefs st),
          CategoryDeleted).

(** ** Vocabulary *)

(** A sequence of events through one limiter, each with its client and its
    time, and the verdict each one received. *)
Fixpoint serve (maxEvents windowMs : Z) (events : list (string * Z))
    (clients : gmap string RateLimit.client)
    : list (string * RateLimit.verdict) :=
  match events with
  | [] => []
  | (clientId, now) :: rest =>
      let '(clients', v) :=
        RateLimit.limiter maxEvents windowMs clientId now clients in
      (clientId, v) :: serve maxEvents windowMs rest clients'
  end.

Definition eventsOf (clientId : string) (events : list (string * Z)) : Z :=
  Z.of_nat (length (List.filter (fun e => String.eqb (fst e) clientId) events)).

Definition passedOf (clientId : string)
    (verdicts : list (string * RateLimit.verdict)) : Z :=
  Z.of_nat
    (length
       (List.filter
          (fun r => String.eqb (fst r) clientId
                    && match snd r with
                       | RateLimit.Passed => true
                       | RateLimit.RateLimitExceeded => false
                       end)
          verdicts)).

(** A connection and the events that follow it. *)
Definition session (userId userRole : string) (events : list SocketEvent)
    : Socket.t :=
  fold_left onEvent events (onConnection (Socket.mk userId userRole ∅)).

(** The rooms a socket can be in, and the rooms it stays in. *)
Definition roomAllowed (socket : Socket.t) (room : string) : Prop :=
  room = "user_" +:+ Socket.userId socket
  \/ (Socket.userRole socket = "admin"
      /\ (room = "admin_room" \/ room = "admin_analytics"))
  \/ exists productId, room = "product_" +:+ productId.

Definition roomsKept (socket : Socket.t) : Prop :=
  "user_" +:+ Socket.userId socket ∈ Socket.rooms socket
  /\ (Socket.userRole socket = "admin" -> "admin_room" ∈ Socket.rooms socket).

(** Every [category] of a product and every [parent] of a category
    points to a stored category.  The [subcategory] of a product is not
    covered. *)
Definition consistent (st : Catalogue) : Prop :=
  map_Forall (fun _ p => is_Some (categories st !! ProductRefs.category p))
    (productRefs st)
  /\ map_Forall
       (fun _ c => match Category.parent c with
                   | Some p => is_Some (categories st !! p)
                   | None => True
                   end)
       (categories st).


(** Product 10 is in category 2 and has category 3 as subcategory. *)
Definition sampleCategories : Catalogue :=
  mkCatalogue
    (<[1%nat := Category.mk "Audio" None true 0]>
       (<[2%nat := Category.mk "Cables" (Some 1%nat) true 0]>
          (<[3%nat := Category.mk "Adapters" None true 0]> ∅)))
    (<[10%nat := ProductRefs.mk 2%nat (Some 3%nat)]> ∅).

(** ** The category tree (controllers/categoryController.js) *)

(** An object of [categoryMap]: the category with its [children] array.
    The array holds references to other objects of the map; a reference
    is the key of the object it points to. *)
Module TreeNode.
Record t := mk {
  category : Category.t;
  children : list ObjectId
}.
End TreeNode.

(** One step of the first pass. *)
Definition register (categoryMap : gmap ObjectId TreeNode.t)
    (category : ObjectId * Category.t) : gmap ObjectId TreeNode.t :=
  <[fst category := TreeNode.mk (snd category) []]> categoryMap.

(** First pass of [getCategoryTree]: one object per category, without
    children. *)
Definition firstPass (categories : list (ObjectId * Category.t))
    : gmap ObjectId TreeNode.t :=
  fold_left register categories ∅.

(** One step of the second pass. *)
Definition attach (acc : gmap ObjectId TreeNode.t * list ObjectId)
    (category : ObjectId * Category.t)
    : gmap ObjectId TreeNode.t * list ObjectId :=
  let '(categoryMap, tree) := acc in
  match Category.parent (snd category) with
  | Some p =>
      match categoryMap !! p with
      | Some parent =>
          (<[p := TreeNode.mk (TreeNode.category parent)
                    (TreeNode.children parent ++ [fst category])]> categoryMap,
           tree)
      | None => (categoryMap, tree)
      end
  | None => (categoryMap, tree ++ [fst category])
  end.

(** Second pass: every category is pushed to the children of its parent
    when the map has the parent, to [tree] when it has no parent. *)
Definition secondPass (categories : list (ObjectId * Category.t))
    (categoryMap : gmap ObjectId TreeNode.t)
    : gmap ObjectId TreeNode.t * list ObjectId :=
  fold_left attach categories (categoryMap, []).

(** The JSON value of the answer. *)
#[warnings="-register-all"]
Inductive CategoryTree :=
| TreeOf (_id : ObjectId) (category : Category.t) (children : list CategoryTree).

(** [res.json] follows the references; [None] when [fuel] levels do not
    reach the leaves. *)
Fixpoint toJSON (fuel : nat) (categoryMap : gmap ObjectId TreeNode.t)
    (ref : ObjectId) : option CategoryTree :=
  match fuel with
  | O => None
  | S fuel =>
      match categoryMap !! ref with
      | None => None
      | Some obj =>
          match mapM (toJSON fuel categoryMap) (TreeNode.children obj) with
          | Some children => Some (TreeOf ref (TreeNode.category obj) children)
          | None => None
          end
      end
  end.

(** [getCategoryTree], from the categories the query found. *)
Definition getCategoryTree (categories : list (ObjectId * Category.t))
    : option (list CategoryTree) :=
  let '(categoryMap, tree) := secondPass categories (firstPass categories) in
  mapM (toJSON (length categories) categoryMap) tree.

(** Vocabulary. *)

Definition hasParent (p : ObjectId) (category : ObjectId * Category.t) : bool :=
  match Category.parent (snd category) with
  | Some q => Nat.eqb q p
  | None => false
  end.

Definition isRoot (category : ObjectId * Category.t) : bool :=
  match Category.parent (snd category) with
  | Some _ => false
  | None => true
  end.

Definition childrenOf (p : ObjectId) (categories : list (ObjectId * Category.t))
    : list ObjectId :=
  map fst (List.filter (hasParent p) categories).

Definition rootsOf (categories : list (ObjectId * Category.t)) : list ObjectId :=
  map fst (List.filter isRoot categories).

(** A category hangs from a root when following the parents inside the
    list ends at a category without a parent. *)
Inductive attached (categories : list (ObjectId * Category.t))
    : ObjectId -> Prop :=
| attached_root id c :
    In (id, c) categories -> Category.parent c = None ->
    attached categories id
| attached_child id c p :
    In (id, c) categories -> Category.parent c = Some p ->
    attached categories p -> attached categories id.

(** The same, with the path to the root. *)
Inductive chain (categories : list (ObjectId * Category.t))
    : ObjectId -> list ObjectId -> Prop :=
| chain_root id c :
    In (id, c) categories -> Category.parent c = None ->
    chain categories id [id]
| chain_child id c p l :
    In (id, c) categories -> Category.parent c = Some p ->
    chain categories p l -> chain categories id (id :: l).

Definition treeId (t : CategoryTree) : ObjectId :=
  match t with TreeOf id _ _ => id end.

Definition treeChildren (t : CategoryTree) : list CategoryTree :=
  match t with TreeOf _ _ children => children end.

Definition treeCategory (t : CategoryTree) : Category.t :=
  match t with TreeOf _ c _ => c end.

(** A tree with all the trees below it. *)
Fixpoint subtrees (t : CategoryTree) : list CategoryTree :=
  match t with
  | TreeOf _ _ children =>
      t :: (fix all (ts : list CategoryTree) : list CategoryTree :=
              match ts with
              | [] => []
              | t :: ts => subtrees t ++ all ts
              end) children
  end.

Definition nodes (t : CategoryTree) : list ObjectId :=
  map treeId (subtrees t).

Definition forestSubtrees (forest : list CategoryTree) : list CategoryTree :=
  concat (map subtrees forest).

Definition forestNodes (forest : list CategoryTree) : list ObjectId :=
  concat (map nodes forest).

(** The objects of [categoryMap] after both passes. *)
Definition categoryObjects (categories : list (ObjectId * Category.t))
    : gmap ObjectId TreeNode.t :=
  fst (secondPass categories (firstPass categories)).

(** What the second pass has made of an object when [rest] is still to
    be attached. *)
Definition adopt (p : ObjectId) (rest : list (ObjectId * Category.t))
    (n : TreeNode.t) : TreeNode.t :=
  TreeNode.mk (TreeNode.category n) (TreeNode.children n ++ childrenOf p rest).

Definition sampleTree : list (ObjectId * Category.t) :=
  [(1%nat, Category.mk "Audio" None true 0);
   (2%nat, Category.mk "Cables" (Some 1%nat) true 1);
   (3%nat, Category.mk "Orphans" (Some 9%nat) true 2);
   (4%nat, Category.mk "USB" (Some 2%nat) true 3);
   (5%nat, Category.mk "Lost" (Some 3%nat) true 4)].
(** * Proofs *)

(** ** Unfolding the effects *)

Ltac run :=
  unfold mbind, M_bind, mret, M_ret, throw in *; simpl in *.

Lemma sent_fields w l :
  products (sent w l) = products w /\ coupons (sent w l) = coupons w
  /\ orders (sent w l) = orders w /\ users (sent w l) = users w
  /\ io (sent w l) = io w.
Proof. unfold sent. destruct (io w) eqn:E; simpl; auto. Qed.

Lemma sent_sent w l k : sent (sent w l) k = sent w (l ++ k).
Proof.
  unfold sent, withEmitted. destruct w as [ps cs os us [] ms]; simpl;
    [now rewrite app_assoc | reflexivity].
Qed.

Lemma newMessages_same w : newMessages w w = [].
Proof. unfold newMessages. apply drop_all. Qed.

Lemma newMessages_sent w l : newMessages w (sent w l) = if io w then l else [].
Proof.
  unfold newMessages, sent. destruct (io w); simpl.
  - apply drop_app_length.
  - apply drop_all.
Qed.

(** Each helper hands its messages to [sent]. *)
Lemma emitStockUpdate_run pid d w :
  emitStockUpdate pid d w
  = (sent w [mkMessage (ProductRoom pid) "stock_updated" d], inr tt).
Proof. unfold emitStockUpdate, ifIo, send, sent. now destruct (io w). Qed.

Lemma emitLowStockAlert_run d w :
  emitLowStockAlert d w
  = (sent w [mkMessage AdminAnalyticsRoom "low_stock_alert" d], inr tt).
Proof. unfold emitLowStockAlert, ifIo, send, sent. now destruct (io w). Qed.

Lemma emitAdminAnalytics_run a w :
  emitAdminAnalytics a w
  = (sent w [mkMessage AdminAnalyticsRoom "analytics_update" (AdminAnalytics a)],
     inr tt).
Proof. unfold emitAdminAnalytics, ifIo, send, sent. now destruct (io w). Qed.

Lemma emitOrderUpdate_run u d w :
  emitOrderUpdate u d w
  = (sent w [mkMessage (UserOrdersRoom u) "order_updated" d;
             mkMessage AdminOrdersRoom "new_order_update" d],
     inr tt).
Proof.
  unfold emitOrderUpdate, ifIo, send, sent. destruct (io w); [| reflexivity].
  run. unfold withEmitted. simpl. now rewrite <- app_assoc.
Qed.

Lemma handleStockChange_run pid old new p w :
  handleStockChange pid old new p w
  = (sent w (stockMessages pid old new p), inr tt).
Proof.
  unfold handleStockChange, stockMessages, lowStockMessage. cbv zeta.
  unfold mbind, M_bind. rewrite emitStockUpdate_run.
  destruct ((new <=? _) && _).
  - rewrite emitLowStockAlert_run, emitAdminAnalytics_run.
    now rewrite !sent_sent.
  - unfold mret, M_ret. rewrite emitAdminAnalytics_run.
    now rewrite !sent_sent.
Qed.

(** ** Low-stock alert *)

(** C8.  [handleStockChange] hands the low-stock alert to its helper
    exactly when the old stock is strictly above [lowStockThreshold] and
    the new stock is at or below it, and the helper sends it only when a
    socket server is registered in [global.io].  In the store as the
    server starts it nothing is registered: the change from 12 to 7 with
    threshold 10 sends nothing, where with a server registered it would
    send the alert, and the change from 7 to 4 none.  An order for 5 of
    12 is answered with an internal error and leaves the stock at 12. *)
Theorem low_stock_alert_needs_socket_server :
  (forall pid old new p w,
      alertsIn (newMessages w (fst (handleStockChange pid old new p w)))
      = if io w
           && (new <=? Product.lowStockThreshold p)
           && (Product.lowStockThreshold p <? old)
        then [lowStockMessage pid p new]
        else [])
  /\ (let w := Sample.shop (Sample.widget 40 12 true false) in
      let p7 := Sample.widget 40 7 true false in
      let p4 := Sample.widget 40 4 true false in
      io w = false
      /\ newMessages w (fst (handleStockChange 1%nat 12 7 p7 w)) = []
      /\ alertsIn
           (newMessages (listening w)
              (fst (handleStockChange 1%nat 12 7 p7 (listening w))))
         = [lowStockMessage 1%nat p7 7]
      /\ alertsIn
           (newMessages (listening w)
              (fst (handleStockChange 1%nat 7 4 p4 (listening w))))
         = [])
  /\ (let w := Sample.shop (Sample.widget 40 12 true false) in
      createOrder Sample.customer Sample.noon
        (Sample.body [Sample.line 5] None) w
      = (w, Failed (InternalError (ValidationError "Order")))).
Proof.
  split; [| split].
  - intros pid old new p w. rewrite handleStockChange_run. simpl.
    rewrite newMessages_sent. destruct (io w); [| reflexivity].
    unfold stockMessages, alertsIn. simpl.
    destruct ((new <=? _) && _); reflexivity.
  - repeat split; vm_compute; reflexivity.
  - vm_compute. reflexivity.
Qed.

(** ** Discount formula *)

Lemma Qltb_min (m b : Q) : (if Qltb m b then m else b) = Qmin b m.
Proof.
  unfold Qltb, Qmin, GenericMinMax.gmin, Qcompare.
  destruct (Qle_bool b m) eqn:H; simpl.
  - apply Qle_bool_iff in H. unfold Qle in H.
    destruct (Z.compare_spec (Qnum b * QDen m) (Qnum m * QDen b));
      try reflexivity; lia.
  - assert (Hn : ~ (b <= m)%Q) by (rewrite <- Qle_bool_iff; congruence).
    unfold Qle in Hn.
    destruct (Z.compare_spec (Qnum b * QDen m) (Qnum m * QDen b));
      try reflexivity; lia.
Qed.

Lemma calculateDiscount_unrestricted {Item} (c : Coupon.t) now (amount : Q)
    (items : list Item) :
  Coupon.isValid c now = true ->
  Coupon.applicableProducts c = [] ->
  Coupon.applicableCategories c = [] ->
  (Coupon.minimumOrderAmount c <= amount)%Q ->
  Coupon.calculateDiscount c now amount items = cappedDiscount c amount.
Proof.
  intros Hv Hp Hc Hm. unfold Coupon.calculateDiscount, cappedDiscount.
  rewrite Hv, Hp, Hc. simpl.
  apply Qle_bool_iff in Hm. unfold Qltb at 1. rewrite Hm. simpl.
  destruct (Coupon.maximumDiscountAmount c) as [m|]; [| reflexivity].
  destruct (Qeq_bool m 0); simpl; [reflexivity |].
  now rewrite Qltb_min.
Qed.

(** C5, amended.  For a coupon that is valid at the time, has no product
    or category restriction and whose minimum order amount the order
    reaches, the discount is the percentage of the order amount or the
    flat value, capped at [maximumDiscountAmount] when that is present and
    not zero, then capped at the order amount; it never exceeds the order
    amount.  For the 10 percent coupon with minimum 50 and maximum 20 and
    an order amount of 300 the discount is 20 and the total 280. *)
Theorem discount_formula_and_cap :
  (forall (c : Coupon.t) (now : Date) (amount : Q) (items : list OrderItem.t),
      Coupon.isValid c now = true ->
      Coupon.applicableProducts c = [] ->
      Coupon.applicableCategories c = [] ->
      (Coupon.minimumOrderAmount c <= amount)%Q ->
      Coupon.calculateDiscount c now amount items = cappedDiscount c amount
      /\ (Coupon.calculateDiscount c now amount items <= amount)%Q)
  /\ (Coupon.calculateDiscount Sample.SAVE10 Sample.noon 300 (@nil OrderItem.t) == 20)%Q
  /\ (300 + 0 + 0
      - Coupon.calculateDiscount Sample.SAVE10 Sample.noon 300 (@nil OrderItem.t)
      == 280)%Q.
Proof.
  split; [| split].
  - intros c now amount items Hv Hp Hc Hm.
    rewrite (calculateDiscount_unrestricted c now amount items Hv Hp Hc Hm).
    split; [reflexivity |]. unfold cappedDiscount. apply Q.le_min_r.
  - vm_compute. reflexivity.
  - vm_compute. reflexivity.
Qed.

(** The theorem at the coupon of the scenario. *)
Lemma discount_formula_and_cap_witness :
  Coupon.calculateDiscount Sample.SAVE10 Sample.noon 300 (@nil OrderItem.t)
  = cappedDiscount Sample.SAVE10 300
  /\ (Coupon.calculateDiscount Sample.SAVE10 Sample.noon 300 (@nil OrderItem.t)
      <= 300)%Q.
Proof.
  apply (proj1 discount_formula_and_cap Sample.SAVE10 Sample.noon 300%Q []).
  - reflexivity.
  - reflexivity.
  - reflexivity.
  - vm_compute. discriminate.
Defined.

(** C5 as stated fails for a maximum that is present and zero: the test
    [this.maximumDiscountAmount && ...] is false for 0, so a 10 percent
    coupon on 300 yields 30 where the stated formula yields 0. *)
Lemma zero_maximum_is_not_applied :
  Coupon.isValid Sample.ZEROCAP Sample.noon = true
  /\ Coupon.maximumDiscountAmount Sample.ZEROCAP = Some 0%Q
  /\ (Coupon.calculateDiscount Sample.ZEROCAP Sample.noon 300 (@nil OrderItem.t) == 30)%Q
  /\ (specDiscount Sample.ZEROCAP 300 == 0)%Q
  /\ ~ (Coupon.calculateDiscount Sample.ZEROCAP Sample.noon 300 (@nil OrderItem.t)
        == specDiscount Sample.ZEROCAP 300)%Q.
Proof.
  repeat split; try (vm_compute; reflexivity).
  intros H. vm_compute in H. discriminate H.
Qed.

(** ** Shape of a [createOrder] run *)

(** A usage entry without its order does not pass the coupon's validators. *)
Lemma recordUsage_rejected c u :
  Usage.order u = None -> Coupon.validate (Coupon.recordUsage c u) = false.
Proof.
  intros Hu. unfold Coupon.validate, Coupon.recordUsage. simpl.
  rewrite forallb_app. simpl. rewrite Hu.
  now rewrite andb_false_r, andb_false_r.
Qed.

Lemma Coupon_save_recordUsage c u w :
  Usage.order u = None ->
  Coupon_save (Coupon.recordUsage c u) w = (w, inl (ValidationError "Coupon")).
Proof. intros Hu. unfold Coupon_save. now rewrite recordUsage_rejected. Qed.

(** The coupon step leaves the store as it found it, and ends in one of
    three ways. *)
Lemma applyCoupon_inv userId now cc subtotal ois w :
  applyCoupon userId now cc subtotal ois w = (w, inr (inl InvalidCoupon))
  \/ applyCoupon userId now cc subtotal ois w
     = (w, inl (ValidationError "Coupon"))
  \/ applyCoupon userId now cc subtotal ois w = (w, inr (inr (0%Q, None))).
Proof.
  unfold applyCoupon. destruct cc as [code|]; [| right; right; reflexivity].
  destruct (truthyS (Some code)); [| right; right; reflexivity].
  unfold Coupon_findOne. run.
  destruct (coupons w !! toUpperCase code) as [c|]; [| left; reflexivity].
  destruct (Coupon.canUserUse c userId now); simpl; [| left; reflexivity].
  right; left. run. now rewrite Coupon_save_recordUsage.
Qed.


(** [createOrder] checks the lines, runs the coupon step and hands the
    document to [Order.create], which rejects it. *)
Lemma placeOrder_run userId now body w :
  placeOrder userId now body w =
  match validateItems (products w) (Body.items body) 0%Q [] with
  | inl e => (w, inr (inl e))
  | inr (subtotal, ois) =>
      match applyCoupon userId now (Body.couponCode body) subtotal ois w with
      | (w1, inl exn) => (w1, inl exn)
      | (w1, inr (inl e)) => (w1, inr (inl e))
      | (w1, inr (inr _)) => (w1, inl (ValidationError "Order"))
      end
  end.
Proof.
  unfold placeOrder.
  destruct (validateItems _ _ _ _) as [e | [subtotal ois]]; [reflexivity |].
  unfold mbind at 1, M_bind at 1.
  destruct (applyCoupon _ _ _ _ _ w) as [w1 [exn | [e | [d cd]]]];
    reflexivity.
Qed.

Lemma createOrder_run userId now body w :
  createOrder userId now body w =
  match validateItems (products w) (Body.items body) 0%Q [] with
  | inl e => (w, Failed e)
  | inr (subtotal, ois) =>
      match applyCoupon userId now (Body.couponCode body) subtotal ois w with
      | (w1, inl exn) => (w1, Failed (InternalError exn))
      | (w1, inr (inl e)) => (w1, Failed e)
      | (w1, inr (inr _)) =>
          (w1, Failed (InternalError (ValidationError "Order")))
      end
  end.
Proof.
  unfold createOrder, tryCatch, mbind, M_bind. rewrite placeOrder_run.
  destruct (validateItems _ _ _ _) as [e | [subtotal ois]]; [reflexivity |].
  destruct (applyCoupon _ _ _ _ _ w) as [w1 [exn | [e | [d cd]]]];
    reflexivity.
Qed.

(** Every answer of [createOrder] is a failure, and the store is as
    before the call. *)
Lemma createOrder_inv userId now body w :
  exists e, createOrder userId now body w = (w, Failed e).
Proof.
  rewrite createOrder_run.
  destruct (validateItems _ _ _ _) as [e | [subtotal ois]]; [eauto |].
  destruct (applyCoupon_inv userId now (Body.couponCode body) subtotal ois w)
    as [H | [H | H]]; rewrite H; eauto.
Qed.

Lemma createOrder_no_order userId now body w o :
  orders (fst (createOrder userId now body w)) = orders w ++ [o]
  \/ snd (createOrder userId now body w) = Created o ->
  False.
Proof.
  destruct (createOrder_inv userId now body w) as [e ->]. simpl.
  intros [H | H]; [| discriminate H].
  apply (f_equal (@length _)) in H. rewrite length_app in H. simpl in H. lia.
Qed.


(** The loop of [createOrder] returns the running sum of its line totals. *)
Lemma validateItems_sum ps items :
  forall s0 ois0 s ois,
    validateItems ps items s0 ois0 = inr (s, ois) ->
    exists new,
      ois = ois0 ++ new
      /\ s = fold_left
               (fun acc it =>
                  (acc + OrderItem.price it * inject_Z (OrderItem.quantity it))%Q)
               new s0.
Proof.
  induction items as [| item rest IH]; intros s0 ois0 s ois H; simpl in H.
  - inversion H; subst. exists []. now rewrite app_nil_r.
  - destruct (ps !! Item.product item) as [p|]; [| discriminate H].
    destruct (negb (Product.isActive p)); [discriminate H |].
    destruct (negb (Product.isInStock p (Item.quantity item)));
      [discriminate H |].
    apply IH in H. destruct H as [new [Ho Hs]].
    eexists (_ :: new). rewrite <- app_assoc in Ho. simpl in Ho.
    split; [exact Ho | exact Hs].
Qed.

Lemma validateItems_lineSum ps items s ois :
  validateItems ps items 0%Q [] = inr (s, ois) -> s = lineSum ois.
Proof.
  intros H. apply validateItems_sum in H. destruct H as [new [Ho Hs]].
  simpl in Ho. subst. reflexivity.
Qed.

Lemma truthyS_nonempty code : code <> ""%string -> truthyS (Some code) = true.
Proof.
  intros H. unfold truthyS. destruct (String.eqb_spec code ""); [contradiction | reflexivity].
Qed.

(** A discount asked for an amount below the minimum is 0. *)
Lemma calculateDiscount_below_minimum {Item} c now (amount : Q)
    (items : list Item) :
  (0 <= amount)%Q ->
  (amount < Coupon.minimumOrderAmount c)%Q ->
  Coupon.calculateDiscount c now amount items = 0%Q.
Proof.
  intros H0 Hlt. unfold Coupon.calculateDiscount.
  destruct (negb (Coupon.isValid c now)); [reflexivity |].
  assert (Hb : forall a, (a <= amount)%Q ->
            Qltb a (Coupon.minimumOrderAmount c) = true).
  { intros a Ha. unfold Qltb.
    destruct (Qle_bool (Coupon.minimumOrderAmount c) a) eqn:E; [| reflexivity].
    apply Qle_bool_iff in E. lra. }
  destruct ((0 <? length (Coupon.applicableProducts c))%nat
            || (0 <? length (Coupon.applicableCategories c))%nat).
  - now rewrite (Hb 0%Q H0).
  - now rewrite (Hb amount (Qle_refl amount)).
Qed.

Section EligibleCoupon.

(** A [createOrder] call whose items pass the checks and whose coupon code
    names a coupon that passes the eligibility check. *)
Variables (userId : ObjectId) (now : Date) (body : Body.t) (w : World).
Variables (code : string) (c : Coupon.t).
Variables (subtotal : Q) (ois : list OrderItem.t).

Hypothesis items_checked :
  validateItems (products w) (Body.items body) 0%Q [] = inr (subtotal, ois).
Hypothesis code_sent : Body.couponCode body = Some code.
Hypothesis code_nonempty : code <> ""%string.
Hypothesis coupon_found : coupons w !! toUpperCase code = Some c.
Hypothesis coupon_eligible : Coupon.canUserUse c userId now = true.

(** The coupon step is the save of the coupon with its new usage entry,
    whose order is still absent. *)
Lemma applyCoupon_eligible :
  applyCoupon userId now (Some code) subtotal ois w =
  (_ ← Coupon_save
         (Coupon.recordUsage c
            (Usage.mk userId None
               (Coupon.calculateDiscount c now subtotal ois) now));
   mret (inr (Coupon.calculateDiscount c now subtotal ois,
              Some (CouponData.mk (Coupon.code c) (Coupon.discountType c)
                      (Coupon.discountValue c))))) w.
Proof.
  unfold applyCoupon. rewrite (truthyS_nonempty code code_nonempty).
  unfold Coupon_findOne, mbind at 1, M_bind at 1. cbv beta.
  rewrite coupon_found, coupon_eligible. reflexivity.
Qed.

(** That save is rejected, and with it the call. *)
Lemma createOrder_eligible_coupon :
  createOrder userId now body w
  = (w, Failed (InternalError (ValidationError "Coupon"))).
Proof.
  rewrite createOrder_run, items_checked, code_sent, applyCoupon_eligible.
  unfold mbind, M_bind. now rewrite Coupon_save_recordUsage.
Qed.

End EligibleCoupon.

(** ** Orders with a coupon *)

(** C6.  A [createOrder] call whose items pass the checks and whose coupon
    code names a coupon that passes the eligibility check pushes a usage
    entry with [order: null]; the save of the coupon is rejected ([order]
    is required), the call answers with an internal error and the store is
    unchanged, so no order is created.  Every order [createOrder] creates
    is without coupon and without discount. *)
Theorem coupon_order_never_created :
  (forall userId now body w code c subtotal ois,
      validateItems (products w) (Body.items body) 0%Q [] = inr (subtotal, ois) ->
      Body.couponCode body = Some code ->
      code <> ""%string ->
      coupons w !! toUpperCase code = Some c ->
      Coupon.canUserUse c userId now = true ->
      Coupon.validate
        (Coupon.recordUsage c
           (Usage.mk userId None
              (Coupon.calculateDiscount c now subtotal ois) now)) = false
      /\ createOrder userId now body w
         = (w, Failed (InternalError (ValidationError "Coupon"))))
  /\ (forall userId now body w o,
         orders (fst (createOrder userId now body w)) = orders w ++ [o]
         \/ snd (createOrder userId now body w) = Created o ->
         Order.coupon o = None /\ Order.discountAmount o = 0%Q).
Proof.
  split.
  - intros userId now body w code c subtotal ois Hv Hcc Hne Hc Hu. split.
    + now apply recordUsage_rejected.
    + eapply createOrder_eligible_coupon; eauto.
  - intros userId now body w o H.
    destruct (createOrder_no_order userId now body w o H).
Qed.

(** An order of 8 widgets at 40 with the code of the sample coupon. *)
Lemma coupon_order_never_created_witness :
  Coupon.validate
    (Coupon.recordUsage Sample.SAVE10
       (Usage.mk Sample.customer None
          (Coupon.calculateDiscount Sample.SAVE10 Sample.noon 320
             [OrderItem.mk 1%nat "Widget" "" 40 8 None "W-1"])
          Sample.noon)) = false
  /\ createOrder Sample.customer Sample.noon (couponBody 8) couponWorld
     = (couponWorld, Failed (InternalError (ValidationError "Coupon"))).
Proof.
  apply (proj1 coupon_order_never_created Sample.customer Sample.noon
           (couponBody 8) couponWorld "save10"%string Sample.SAVE10 320%Q
           [OrderItem.mk 1%nat "Widget" "" 40 8 None "W-1"]).
  - vm_compute. reflexivity.
  - reflexivity.
  - discriminate.
  - reflexivity.
  - reflexivity.
Defined.

(** C3.  At an order of 8 widgets with the sample coupon: no order exists
    yet when the coupon step hands the coupon, its [usedCount] already
    incremented and its usage entry appended with [order: null], to
    [save]; that save is rejected, the call answers with an internal
    error, and neither an order nor the usage is stored. *)
Theorem coupon_usage_saved_before_order :
  let ois := [OrderItem.mk 1%nat "Widget" "" 40 8 None "W-1"] in
  let used :=
    Coupon.recordUsage Sample.SAVE10
      (Usage.mk Sample.customer None 20 Sample.noon) in
  orders couponWorld = []
  /\ Coupon.usedCount used = Coupon.usedCount Sample.SAVE10 + 1
  /\ applyCoupon Sample.customer Sample.noon (Some "save10"%string) 320 ois
       couponWorld
     = (_ ← Coupon_save used;
        mret (inr (20%Q, Some (CouponData.mk "SAVE10" "percentage" 10))))
         couponWorld
  /\ Coupon_save used couponWorld
     = (couponWorld, inl (ValidationError "Coupon"))
  /\ createOrder Sample.customer Sample.noon (couponBody 8) couponWorld
     = (couponWorld, Failed (InternalError (ValidationError "Coupon"))).
Proof. vm_compute. repeat split. Qed.

(** ** An order amount below the coupon's minimum *)

(** For a coupon that passes the eligibility check and an amount below
    its minimum, the coupon step has discount 0 in hand, and the coupon
    with one more use and a usage entry of discount 0, when it calls
    [save]: nothing has refused the coupon. *)
Lemma useCoupon_below_minimum userId now c (subtotal : Q)
    (ois : list OrderItem.t) :
  (0 <= subtotal)%Q ->
  (subtotal < Coupon.minimumOrderAmount c)%Q ->
  useCoupon userId now c subtotal ois
  = (0%Q,
     CouponData.mk (Coupon.code c) (Coupon.discountType c)
       (Coupon.discountValue c),
     Coupon.recordUsage c (Usage.mk userId None 0%Q now)).
Proof.
  intros H0 Hlt. unfold useCoupon.
  now rewrite (calculateDiscount_below_minimum c now subtotal ois H0 Hlt).
Qed.

(** C4.  One widget at 40 with the sample coupon, whose minimum is 50:
    the coupon passes the eligibility check, [calculateDiscount] returns
    0, and [createOrder] does not refuse the coupon: it goes on with
    discount 0, the coupon's [usedCount] incremented and a usage entry of
    discount 0 pushed, and is answered with the internal error of the
    coupon save, not with [InvalidCoupon]; no order is stored.
    [validateCoupon] refuses the same code and amount with the minimum
    order amount required.  The same holds of every eligible coupon and
    amount below its minimum. *)
Theorem below_minimum_is_zero_discount :
  (let ois := [Sample.unit 1] in
   Coupon.canUserUse Sample.SAVE10 Sample.customer Sample.noon = true
   /\ validateItems (products couponWorld) (Body.items (couponBody 1)) 0%Q []
      = inr (40%Q, ois)
   /\ (40 < Coupon.minimumOrderAmount Sample.SAVE10)%Q
   /\ Coupon.calculateDiscount Sample.SAVE10 Sample.noon 40 ois = 0%Q
   /\ useCoupon Sample.customer Sample.noon Sample.SAVE10 40 ois
      = (0%Q, CouponData.mk "SAVE10" "percentage" 10,
         Coupon.recordUsage Sample.SAVE10
           (Usage.mk Sample.customer None 0%Q Sample.noon))
   /\ createOrder Sample.customer Sample.noon (couponBody 1) couponWorld
      = (couponWorld, Failed (InternalError (ValidationError "Coupon")))
   /\ validateCoupon Sample.customer Sample.noon "save10" 40
        (Body.items (couponBody 1)) couponWorld
      = MinimumRequired 50)
  /\ (forall userId now body w code c subtotal ois,
         validateItems (products w) (Body.items body) 0%Q []
         = inr (subtotal, ois) ->
         Body.couponCode body = Some code ->
         code <> ""%string ->
         coupons w !! toUpperCase code = Some c ->
         Coupon.canUserUse c userId now = true ->
         (0 <= subtotal)%Q ->
         (subtotal < Coupon.minimumOrderAmount c)%Q ->
         useCoupon userId now c subtotal ois
         = (0%Q,
            CouponData.mk (Coupon.code c) (Coupon.discountType c)
              (Coupon.discountValue c),
            Coupon.recordUsage c (Usage.mk userId None 0%Q now))
         /\ createOrder userId now body w
            = (w, Failed (InternalError (ValidationError "Coupon")))
         /\ validateCoupon userId now code subtotal (Body.items body) w
            = MinimumRequired (Coupon.minimumOrderAmount c)).
Proof.
  split.
  - repeat split; vm_compute; reflexivity.
  - intros userId now body w code c subtotal ois Hv Hcc Hne Hc Hu H0 Hlt.
    split; [now apply useCoupon_below_minimum |].
    split; [eapply createOrder_eligible_coupon; eauto |].
    unfold validateCoupon. rewrite Hc.
    assert (Hval : Coupon.isValid c now = true).
    { unfold Coupon.canUserUse in Hu.
      destruct (Coupon.isValid c now); [reflexivity | discriminate Hu]. }
    rewrite Hval, Hu. simpl.
    now rewrite (calculateDiscount_below_minimum c now subtotal
                   (Body.items body) H0 Hlt).
Qed.

(** ** Totals of an order *)


(** ** Stock *)

(** C1.  One unit in stock of a tracked product without backorder, and
    two calls for one unit each: each passes the stock check, is answered
    with an internal error, and leaves the store, and with it the stock
    of 1, as it was.  The decrement of [handleNewOrder] is not
    conditional: on an order of two lines of one unit the first
    decrement is saved and the second rejected by the schema with the
    stock at 0, and two overlapping stock updates both succeed on a
    single decrement. *)
Theorem stock_decrement_is_not_conditional :
  let w := Sample.shop (Sample.widget 40 1 true false) in
  let one := Sample.body [Sample.line 1] None in
  (validateItems (products w) (Body.items one) 0%Q []
   = inr (40%Q, [Sample.unit 1])
   /\ createOrder Sample.customer Sample.noon one w
      = (w, Failed (InternalError (ValidationError "Order")))
   /\ createOrder 8%nat Sample.noon one w
      = (w, Failed (InternalError (ValidationError "Order"))))
  /\ (let r := handleNewOrder
                 (Sample.populated
                    (Sample.order [Sample.unit 1; Sample.unit 1] 80)) w in
      snd r = inl (ValidationError "Product")
      /\ Product.stock <$> products (fst r) !! 1%nat = Some 0)
  /\ (let r := updateStockFor_overlapped (Sample.unit 1) (Sample.unit 1) w in
      snd r = inr tt
      /\ Product.stock <$> products (fst r) !! 1%nat = Some 0
      /\ Product.totalSales <$> products (fst r) !! 1%nat = Some 1).
Proof. vm_compute. repeat split. Qed.

(** The check itself is as claimed: a single line that asks for more than
    the stock of a tracked product without backorder is refused with
    [InsufficientStock] and nothing is written. *)
Lemma createOrder_insufficient_stock userId now body w item p :
  Body.items body = [item] ->
  products w !! Item.product item = Some p ->
  Product.isActive p = true ->
  Product.trackQuantity p = true ->
  Product.allowBackorder p = false ->
  Product.stock p < Item.quantity item ->
  createOrder userId now body w = (w, Failed (InsufficientStock (Product.name p))).
Proof.
  intros Hi Hp Ha Ht Hb Hlt. rewrite createOrder_run, Hi. simpl.
  rewrite Hp, Ha. simpl.
  unfold Product.isInStock. rewrite Ht, Hb. simpl.
  destruct (Z.leb_spec (Item.quantity item) (Product.stock p)); [lia |].
  reflexivity.
Qed.








(** ** Status changes *)

Lemma updateOrderStatus_run id now body w o :
  orders w !! id = Some o ->
  updateOrderStatus id now body w =
  let s := StatusBody.orderStatus body in
  let u :=
    Order.mkUpdate (Some s) None None
      (keepTruthy (StatusBody.trackingNumber body))
      (keepTruthy (StatusBody.shippingCarrier body))
      (keepTruthy (StatusBody.notes body))
      (if String.eqb s "delivered" then Some now else None)
      (if String.eqb s "cancelled" then Some now else None)
      (if String.eqb s "cancelled"
       then keepTruthy (StatusBody.notes body) else None) in
  let o' := Order.applyUpdate u o in
  let user := userRef (users w) (Order.user o') in
  if inEnum Order.orderStatusEnum s then
    (sent (withOrders w (<[id := o']> (orders w)))
       (updateMessages user
          (OrderUpdate (Order._id o') (Order.orderNumber o')
             (Order.orderStatus o) s (Order.totalAmount o') user)
          (OrderStatusChange (Order._id o') (Order.orderNumber o')
             (Order.orderStatus o) s (Order.totalAmount o') user)),
     Updated o')
  else (w, Failed (InternalError (ValidationError "Order"))).
Proof.
  intros Ho.
  unfold updateOrderStatus, tryCatch, Order_findById, mbind at 1, M_bind at 1.
  cbv beta. rewrite Ho. cbv zeta.
  unfold mbind at 1, M_bind at 1, Order_findByIdAndUpdate, Order.validateUpdate.
  cbn [Order.setOrderStatus Order.setPaymentStatus]. rewrite andb_true_r.
  destruct (inEnum Order.orderStatusEnum (StatusBody.orderStatus body));
    [| reflexivity].
  rewrite Ho. unfold populate, handleOrderStatusChange. cbv zeta.
  unfold mbind, M_bind. cbn [Populated.order Populated.user].
  rewrite emitOrderUpdate_run, emitAdminAnalytics_run, sent_sent.
  reflexivity.
Qed.

Lemma updatePaymentStatus_run id body w o :
  orders w !! id = Some o ->
  updatePaymentStatus id body w =
  let s := PaymentBody.paymentStatus body in
  let u :=
    Order.mkUpdate None (Some s) (PaymentBody.paymentId body)
      None None None None None None in
  let o' := Order.applyUpdate u o in
  let user := userRef (users w) (Order.user o') in
  if inEnum Order.paymentStatusEnum s then
    (sent (withOrders w (<[id := o']> (orders w)))
       (updateMessages user
          (PaymentUpdate (Order._id o') (Order.orderNumber o')
             (Order.paymentStatus o) s (Order.totalAmount o'))
          (PaymentStatusChange (Order._id o') (Order.orderNumber o')
             (Order.paymentStatus o) s (Order.totalAmount o'))),
     Updated o')
  else (w, Failed (InternalError (ValidationError "Order"))).
Proof.
  intros Ho.
  unfold updatePaymentStatus, tryCatch, Order_findById, mbind at 1, M_bind at 1.
  cbv beta. rewrite Ho. cbv zeta.
  unfold mbind at 1, M_bind at 1, Order_findByIdAndUpdate, Order.validateUpdate.
  cbn [Order.setOrderStatus Order.setPaymentStatus]. rewrite andb_true_l.
  destruct (inEnum Order.paymentStatusEnum (PaymentBody.paymentStatus body));
    [| reflexivity].
  rewrite Ho. unfold populate, handlePaymentStatusChange. cbv zeta.
  unfold mbind, M_bind. cbn [Populated.order Populated.user].
  rewrite emitOrderUpdate_run, emitAdminAnalytics_run, sent_sent.
  reflexivity.
Qed.

(** C2, amended.  For every stored order and every requested order status
    or payment status: when the requested value is one of the schema's
    enumerated values the change succeeds whatever the current status is,
    sets that status field to the requested value and leaves the other
    status field as it was; when it is not, the call fails with an
    internal error and the store is unchanged. *)
Theorem status_change_any_enumerated_value id now w o :
  orders w !! id = Some o ->
  (forall body,
      let s := StatusBody.orderStatus body in
      if inEnum Order.orderStatusEnum s then
        exists w' o',
          updateOrderStatus id now body w = (w', Updated o')
          /\ orders w' = <[id := o']> (orders w)
          /\ Order.orderStatus o' = s
          /\ Order.paymentStatus o' = Order.paymentStatus o
      else
        updateOrderStatus id now body w
        = (w, Failed (InternalError (ValidationError "Order"))))
  /\ (forall body,
         let s := PaymentBody.paymentStatus body in
         if inEnum Order.paymentStatusEnum s then
           exists w' o',
             updatePaymentStatus id body w = (w', Updated o')
             /\ orders w' = <[id := o']> (orders w)
             /\ Order.paymentStatus o' = s
             /\ Order.orderStatus o' = Order.orderStatus o
         else
           updatePaymentStatus id body w
           = (w, Failed (InternalError (ValidationError "Order")))).
Proof.
  intros Ho. split; intros body s.
  - rewrite (updateOrderStatus_run id now body w o Ho). cbv zeta. fold s.
    destruct (inEnum Order.orderStatusEnum s); [| reflexivity].
    eexists _, _. split; [reflexivity |].
    match goal with |- context [sent ?v ?l] =>
      destruct (sent_fields v l) as (_ & _ & -> & _ & _) end.
    repeat split.
  - rewrite (updatePaymentStatus_run id body w o Ho). cbv zeta. fold s.
    destruct (inEnum Order.paymentStatusEnum s); [| reflexivity].
    eexists _, _. split; [reflexivity |].
    match goal with |- context [sent ?v ?l] =>
      destruct (sent_fields v l) as (_ & _ & -> & _ & _) end.
    repeat split.
Qed.

(** Order 0 of the sample shop, asked to become "shipped" and, on the
    payment side, "refunded". *)
Lemma status_change_any_enumerated_value_witness :
  (exists w' o',
      updateOrderStatus 0%nat Sample.noon (statusRequest "shipped") shopWithOrder
      = (w', Updated o')
      /\ orders w' = <[0%nat := o']> (orders shopWithOrder)
      /\ Order.orderStatus o' = "shipped"%string
      /\ Order.paymentStatus o' = Order.paymentStatus pendingOrder)
  /\ (exists w' o',
         updatePaymentStatus 0%nat (paymentRequest "refunded") shopWithOrder
         = (w', Updated o')
         /\ orders w' = <[0%nat := o']> (orders shopWithOrder)
         /\ Order.paymentStatus o' = "refunded"%string
         /\ Order.orderStatus o' = Order.orderStatus pendingOrder).
Proof.
  pose proof (status_change_any_enumerated_value 0%nat Sample.noon
                shopWithOrder pendingOrder ltac:(vm_compute; reflexivity))
    as [H1 H2].
  split.
  - exact (H1 (statusRequest "shipped")).
  - exact (H2 (paymentRequest "refunded")).
Defined.

(** C2 as stated fails: order 0 is pending and unpaid; neither
    pending to delivered nor pending to refunded is an allowed edge, and
    both requests succeed. *)
Lemma status_change_outside_edges_accepted :
  Order.orderStatus <$> orders shopWithOrder !! 0%nat = Some "pending"%string
  /\ Order.paymentStatus <$> orders shopWithOrder !! 0%nat = Some "pending"%string
  /\ allowedOrderEdge "pending" "delivered" = false
  /\ allowedPaymentEdge "pending" "refunded" = false
  /\ (exists o',
         snd (updateOrderStatus 0%nat Sample.noon (statusRequest "delivered")
                shopWithOrder) = Updated o'
         /\ Order.orderStatus o' = "delivered"%string)
  /\ (exists o',
         snd (updatePaymentStatus 0%nat (paymentRequest "refunded")
                shopWithOrder) = Updated o'
         /\ Order.paymentStatus o' = "refunded"%string).
Proof.
  repeat split; try (vm_compute; reflexivity);
    eexists; split; vm_compute; reflexivity.
Qed.

Lemma preSaveStatusHistory_appends now o :
  Order.statusHistory (Order.preSaveStatusHistory false true now o)
  = Order.statusHistory o ++
      [StatusEntry.mk (Order.orderStatus o) now
         (Some ("Order status changed to " ++ Order.orderStatus o)%string) None].
Proof. reflexivity. Qed.

(** C7.  Order 0 of the sample shop, pending with an empty history, is
    asked to become "confirmed": [updateOrderStatus] accepts, the status
    is "confirmed", and the history of the answer and of the stored order
    is still empty, where the [save] hook would have appended one entry. *)
Theorem accepted_transition_leaves_history :
  let r := updateOrderStatus 0%nat Sample.noon (statusRequest "confirmed")
             shopWithOrder in
  Order.statusHistory <$> orders shopWithOrder !! 0%nat = Some []
  /\ (exists o',
         snd r = Updated o'
         /\ Order.orderStatus o' = "confirmed"%string
         /\ Order.statusHistory o' = [])
  /\ Order.statusHistory <$> orders (fst r) !! 0%nat = Some []
  /\ (forall now o,
         length (Order.statusHistory (Order.preSaveStatusHistory false true now o))
         = S (length (Order.statusHistory o))).
Proof.
  split; [vm_compute; reflexivity |].
  split; [eexists; repeat split; vm_compute; reflexivity |].
  split; [vm_compute; reflexivity |].
  intros now o. rewrite preSaveStatusHistory_appends, length_app. simpl. lia.
Qed.

(** * Further properties *)

(** ** Discounts *)

Lemma Qltb_false (a b : Q) : Qltb a b = false -> (b <= a)%Q.
Proof.
  unfold Qltb. destruct (Qle_bool b a) eqn:E; [| discriminate].
  intros _. now apply Qle_bool_iff.
Qed.

Lemma Qltb_true (a b : Q) : Qltb a b = true -> (a < b)%Q.
Proof.
  unfold Qltb. destruct (Qle_bool b a) eqn:E; [discriminate |].
  intros _. apply Qnot_le_lt. rewrite <- Qle_bool_iff. congruence.
Qed.

Lemma rawDiscount_nonneg c (x : Q) :
  schemaValues c -> (0 <= x)%Q -> (0 <= rawDiscount c x)%Q.
Proof.
  intros [Hv Hm] Hx. unfold rawDiscount.
  assert (Hb : (0 <= if String.eqb (Coupon.discountType c) "percentage"
                     then x * Coupon.discountValue c / 100
                     else Coupon.discountValue c)%Q).
  { destruct (String.eqb _ _); [| exact Hv].
    unfold Qdiv. change (/ 100)%Q with (1 # 100)%Q.
    apply Qmult_le_0_compat; [| lra].
    now apply Qmult_le_0_compat. }
  destruct (Coupon.maximumDiscountAmount c) as [m|]; [| exact Hb].
  destruct (truthyQ (Some m) && Qltb m _); [exact Hm | exact Hb].
Qed.

Lemma rawDiscount_mono c (x y : Q) :
  schemaValues c -> (x <= y)%Q -> (rawDiscount c x <= rawDiscount c y)%Q.
Proof.
  intros [Hv Hm] Hxy. unfold rawDiscount.
  set (bx := if String.eqb (Coupon.discountType c) "percentage"
             then (x * Coupon.discountValue c / 100)%Q
             else Coupon.discountValue c).
  set (by' := if String.eqb (Coupon.discountType c) "percentage"
              then (y * Coupon.discountValue c / 100)%Q
              else Coupon.discountValue c).
  assert (Hb : (bx <= by')%Q).
  { subst bx by'. destruct (String.eqb _ _); [| lra].
    unfold Qdiv. change (/ 100)%Q with (1 # 100)%Q.
    apply Qmult_le_compat_r; [| lra].
    now apply Qmult_le_compat_r. }
  destruct (Coupon.maximumDiscountAmount c) as [m|]; [| exact Hb].
  destruct (truthyQ (Some m)); simpl; [| exact Hb].
  destruct (Qltb m bx) eqn:Ex; destruct (Qltb m by') eqn:Ey;
    try apply Qltb_true in Ex; try apply Qltb_true in Ey;
    try apply Qltb_false in Ex; try apply Qltb_false in Ey; lra.
Qed.

Lemma calculateDiscount_unfold {Item} c now (amount : Q) (items : list Item) :
  Coupon.calculateDiscount c now amount items =
  if negb (Coupon.isValid c now) then 0%Q
  else
    let applicableAmount :=
      if (0 <? length (Coupon.applicableProducts c))%nat
         || (0 <? length (Coupon.applicableCategories c))%nat
      then 0%Q else amount in
    if Qltb applicableAmount (Coupon.minimumOrderAmount c) then 0%Q
    else Qmin (rawDiscount c applicableAmount) applicableAmount.
Proof. reflexivity. Qed.

(** X1.  For a coupon whose discount value and maximum are not negative
    and an order amount that is not negative, the discount
    [calculateDiscount] returns lies between 0 and the order amount,
    whatever the coupon's type, restrictions, validity or minimum. *)
Theorem calculateDiscount_bounds (c : Coupon.t) (now : Date) (amount : Q)
    (items : list OrderItem.t) :
  schemaValues c ->
  (0 <= amount)%Q ->
  (0 <= Coupon.calculateDiscount c now amount items <= amount)%Q.
Proof.
  intros Hc Ha. rewrite calculateDiscount_unfold.
  destruct (negb (Coupon.isValid c now)); [lra |]. cbv zeta.
  set (app := if (0 <? length (Coupon.applicableProducts c))%nat
                 || (0 <? length (Coupon.applicableCategories c))%nat
              then 0%Q else amount).
  assert (Happ : (0 <= app <= amount)%Q).
  { subst app. destruct (_ || _); lra. }
  destruct (Qltb app _); [lra |].
  pose proof (rawDiscount_nonneg c app Hc (proj1 Happ)) as Hr.
  pose proof (Q.le_min_r (rawDiscount c app) app) as H1.
  split; [| lra].
  apply Q.min_glb; lra.
Qed.

Lemma calculateDiscount_bounds_witness :
  (0 <= Coupon.calculateDiscount Sample.SAVE10 Sample.noon 300
          (@nil OrderItem.t) <= 300)%Q.
Proof.
  apply (calculateDiscount_bounds Sample.SAVE10 Sample.noon 300%Q []).
  - split; simpl; lra.
  - lra.
Defined.

(** X2.  Under the same conditions a larger order amount never earns a
    smaller discount. *)
Theorem calculateDiscount_monotone (c : Coupon.t) (now : Date) (a b : Q)
    (items : list OrderItem.t) :
  schemaValues c ->
  (0 <= a)%Q ->
  (a <= b)%Q ->
  (Coupon.calculateDiscount c now a items
   <= Coupon.calculateDiscount c now b items)%Q.
Proof.
  intros Hc Ha Hab. rewrite !calculateDiscount_unfold.
  destruct (negb (Coupon.isValid c now)); [lra |]. cbv zeta.
  destruct ((0 <? length (Coupon.applicableProducts c))%nat
            || (0 <? length (Coupon.applicableCategories c))%nat); [lra |].
  destruct (Qltb a _) eqn:Ea; destruct (Qltb b _) eqn:Eb.
  - lra.
  - apply Q.min_glb; [apply rawDiscount_nonneg; auto; lra | lra].
  - apply Qltb_false in Ea. apply Qltb_true in Eb. lra.
  - apply Q.min_le_compat; [now apply rawDiscount_mono | exact Hab].
Qed.

Lemma calculateDiscount_monotone_witness :
  (Coupon.calculateDiscount Sample.SAVE10 Sample.noon 60 (@nil OrderItem.t)
   <= Coupon.calculateDiscount Sample.SAVE10 Sample.noon 300 (@nil OrderItem.t))%Q.
Proof.
  apply (calculateDiscount_monotone Sample.SAVE10 Sample.noon 60%Q 300%Q []).
  - split; simpl; lra.
  - lra.
  - lra.
Defined.

(** ** The coupon check before checkout *)

Lemma canUserUse_isValid c userId now :
  Coupon.canUserUse c userId now = true -> Coupon.isValid c now = true.
Proof.
  unfold Coupon.canUserUse. destruct (Coupon.isValid c now); [reflexivity |].
  simpl. discriminate.
Qed.

(** What [validateCoupon] answers for a coupon that is found, valid and
    usable by the user. *)
Lemma validateCoupon_usable userId now code amount items w c :
  coupons w !! toUpperCase code = Some c ->
  Coupon.canUserUse c userId now = true ->
  validateCoupon userId now code amount items w =
  let d := Coupon.calculateDiscount c now amount items in
  if Qeq_bool d 0 then MinimumRequired (Coupon.minimumOrderAmount c)
  else CouponAccepted
         (CouponData.mk (Coupon.code c) (Coupon.discountType c)
            (Coupon.discountValue c))
         d (Qmax 0 (amount - d)).
Proof.
  intros Hc Hu. unfold validateCoupon.
  rewrite Hc, (canUserUse_isValid c userId now Hu), Hu. reflexivity.
Qed.

Lemma validateCoupon_accepted_inv userId now code amount items w data d f :
  validateCoupon userId now code amount items w = CouponAccepted data d f ->
  exists c,
    coupons w !! toUpperCase code = Some c
    /\ Coupon.canUserUse c userId now = true
    /\ d = Coupon.calculateDiscount c now amount items
    /\ Qeq_bool d 0 = false
    /\ f = Qmax 0 (amount - d).
Proof.
  unfold validateCoupon.
  destruct (coupons w !! toUpperCase code) as [c|]; [| discriminate].
  destruct (Coupon.isValid c now); simpl; [| discriminate].
  destruct (Coupon.canUserUse c userId now) eqn:Hu; simpl; [| discriminate].
  destruct (Qeq_bool _ 0) eqn:E; [discriminate |].
  intros H. inversion H; subst. exists c. auto.
Qed.

(** X3.  A coupon restricted to products or categories is never accepted
    by [validateCoupon]: when it is found, valid and usable by the user,
    the answer is always the "minimum order amount required" one,
    whatever the order amount. *)
Theorem validateCoupon_restricted userId now code amount
    (items : list Item.t) w c :
  coupons w !! toUpperCase code = Some c ->
  Coupon.canUserUse c userId now = true ->
  schemaValues c ->
  Coupon.applicableProducts c <> [] \/ Coupon.applicableCategories c <> [] ->
  validateCoupon userId now code amount items w
  = MinimumRequired (Coupon.minimumOrderAmount c).
Proof.
  intros Hc Hu Hs Hr.
  rewrite (validateCoupon_usable userId now code amount items w c Hc Hu).
  cbv zeta.
  assert (Hd : (Coupon.calculateDiscount c now amount items == 0)%Q).
  { rewrite calculateDiscount_unfold.
    destruct (negb (Coupon.isValid c now)); [reflexivity |]. cbv zeta.
    assert (Hres : (0 <? length (Coupon.applicableProducts c))%nat
                   || (0 <? length (Coupon.applicableCategories c))%nat = true).
    { destruct Hr as [Hr | Hr].
      - destruct (Coupon.applicableProducts c); [contradiction | reflexivity].
      - destruct (Coupon.applicableCategories c); [contradiction |].
        simpl. apply orb_true_r. }
    rewrite Hres. destruct (Qltb 0 _); [reflexivity |].
    apply Q.min_r. apply rawDiscount_nonneg; [exact Hs | lra]. }
  apply Qeq_bool_iff in Hd. now rewrite Hd.
Qed.

Lemma validateCoupon_restricted_witness :
  validateCoupon Sample.customer Sample.noon "only1" 300 [] restrictedWorld
  = MinimumRequired 50.
Proof.
  apply (validateCoupon_restricted Sample.customer Sample.noon "only1"
           300%Q [] restrictedWorld ONLY1).
  - reflexivity.
  - reflexivity.
  - split; simpl; lra.
  - left. discriminate.
Defined.

(** X4.  When [validateCoupon] accepts a coupon for an order amount that is
    not negative, the discount it reports is positive and at most the
    order amount, and the final amount it reports is the order amount less
    the discount. *)
Theorem validateCoupon_accepted_amounts userId now code amount
    (items : list Item.t) w data d f :
  validateCoupon userId now code amount items w = CouponAccepted data d f ->
  match coupons w !! toUpperCase code with
  | Some c => schemaValues c
  | None => True
  end ->
  (0 <= amount)%Q ->
  (0 < d)%Q /\ (d <= amount)%Q /\ (f == amount - d)%Q /\ (0 <= f)%Q.
Proof.
  intros H Hs Ha.
  apply validateCoupon_accepted_inv in H.
  destruct H as (c & Hc & Hu & -> & Hne & ->).
  rewrite Hc in Hs.
  assert (Hb : (0 <= Coupon.calculateDiscount c now amount items <= amount)%Q).
  { rewrite calculateDiscount_unfold.
    destruct (negb (Coupon.isValid c now)); [lra |]. cbv zeta.
    set (app := if (0 <? length (Coupon.applicableProducts c))%nat
                   || (0 <? length (Coupon.applicableCategories c))%nat
                then 0%Q else amount).
    assert (Happ : (0 <= app <= amount)%Q) by (subst app; destruct (_ || _); lra).
    destruct (Qltb app _); [lra |].
    pose proof (rawDiscount_nonneg c app Hs (proj1 Happ)).
    pose proof (Q.le_min_r (rawDiscount c app) app).
    split; [apply Q.min_glb |]; lra. }
  set (d := Coupon.calculateDiscount c now amount items) in *.
  assert (Hd : ~ (d == 0)%Q) by (rewrite <- Qeq_bool_iff; congruence).
  assert (Hf : (Qmax 0 (amount - d) == amount - d)%Q) by (apply Q.max_r; lra).
  repeat split; lra.
Qed.

Lemma validateCoupon_accepted_amounts_witness :
  (0 < 20)%Q /\ (20 <= 300)%Q
  /\ (Qmax 0 (300 - 20) == 300 - 20)%Q /\ (0 <= Qmax 0 (300 - 20))%Q.
Proof.
  apply (validateCoupon_accepted_amounts Sample.customer Sample.noon "save10"
           300%Q [] couponWorld (CouponData.mk "SAVE10" "percentage" 10)
           20%Q (Qmax 0 (300 - 20))).
  - vm_compute. reflexivity.
  - simpl. split; simpl; lra.
  - lra.
Defined.

(** X5.  Every code that [validateCoupon] accepts for a user makes that
    user's [createOrder] fail: with items that pass the checks, the order
    call answers with the internal error and writes nothing. *)
Theorem validateCoupon_accepted_order_fails userId now code amount
    (items : list Item.t) w data d f body subtotal ois :
  validateCoupon userId now code amount items w = CouponAccepted data d f ->
  code <> ""%string ->
  Body.couponCode body = Some code ->
  validateItems (products w) (Body.items body) 0%Q [] = inr (subtotal, ois) ->
  createOrder userId now body w
  = (w, Failed (InternalError (ValidationError "Coupon"))).
Proof.
  intros H Hne Hcc Hv.
  apply validateCoupon_accepted_inv in H.
  destruct H as (c & Hc & Hu & _).
  exact (createOrder_eligible_coupon userId now body w code c subtotal ois
           Hv Hcc Hne Hc Hu).
Qed.


Lemma validateCoupon_accepted_order_fails_witness :
  createOrder Sample.customer Sample.noon (couponBody 8) couponWorld
  = (couponWorld, Failed (InternalError (ValidationError "Coupon"))).
Proof.
  apply (validateCoupon_accepted_order_fails Sample.customer Sample.noon
           "save10" 320%Q [] couponWorld
           (CouponData.mk "SAVE10" "percentage" 10) 20%Q (Qmax 0 (320 - 20))
           (couponBody 8) 320%Q
           [OrderItem.mk 1%nat "Widget" "" 40 8 None "W-1"]).
  - vm_compute. reflexivity.
  - discriminate.
  - reflexivity.
  - vm_compute. reflexivity.
Defined.

(** ** Refused orders *)

(** X6.  When [createOrder] answers with a refusal (a product missing or
    not available, insufficient stock, an invalid coupon) the store and
    the message log are exactly as before the call. *)
Theorem createOrder_refusal_writes_nothing userId now body w w' e :
  createOrder userId now body w = (w', Failed e) ->
  isInternal e = false ->
  w' = w.
Proof.
  intros H He.
  destruct (createOrder_inv userId now body w) as [e' He'].
  rewrite He' in H. now inversion H.
Qed.

Lemma createOrder_refusal_writes_nothing_witness :
  Sample.shop (Sample.widget 40 1 true false)
  = Sample.shop (Sample.widget 40 1 true false).
Proof.
  apply (createOrder_refusal_writes_nothing Sample.customer Sample.noon
           (Sample.body [Sample.line 2] None)
           (Sample.shop (Sample.widget 40 1 true false))
           (Sample.shop (Sample.widget 40 1 true false))
           (InsufficientStock "Widget")).
  - vm_compute. reflexivity.
  - reflexivity.
Defined.

Lemma validateItems_first_error ps pre item post e :
  forall s ois,
    Forall (fun i => lineError ps i = None) pre ->
    lineError ps item = Some e ->
    validateItems ps (pre ++ item :: post) s ois = inl e.
Proof.
  induction pre as [| i pre IH]; intros s ois Hpre He; simpl.
  - unfold lineError in He.
    destruct (ps !! Item.product item) as [p|]; [| now inversion He].
    destruct (negb (Product.isActive p)); [now inversion He |].
    destruct (negb (Product.isInStock p (Item.quantity item)));
      [now inversion He | discriminate He].
  - inversion Hpre as [| ? ? Hi Hrest]; subst.
    unfold lineError in Hi.
    destruct (ps !! Item.product i) as [p|]; [| discriminate Hi].
    destruct (negb (Product.isActive p)); [discriminate Hi |].
    destruct (negb (Product.isInStock p (Item.quantity i)));
      [discriminate Hi |].
    now apply IH.
Qed.

(** X7.  [createOrder] reports the first line, in request order, that
    fails a check: when the lines before it pass and it fails with error
    [e], the answer is [e] whatever the lines after it are, and nothing is
    written. *)
Theorem createOrder_first_offending_line userId now body w pre item post e :
  Body.items body = pre ++ item :: post ->
  Forall (fun i => lineError (products w) i = None) pre ->
  lineError (products w) item = Some e ->
  createOrder userId now body w = (w, Failed e).
Proof.
  intros Hi Hpre He. rewrite createOrder_run, Hi.
  now rewrite (validateItems_first_error (products w) pre item post e 0%Q []
                 Hpre He).
Qed.

Lemma createOrder_first_offending_line_witness :
  createOrder Sample.customer Sample.noon
    (Sample.body [Sample.line 1; Item.mk 2%nat 1 None; Sample.line 9] None)
    (Sample.shop (Sample.widget 40 5 true false))
  = (Sample.shop (Sample.widget 40 5 true false), Failed (ProductNotFound 2%nat)).
Proof.
  apply (createOrder_first_offending_line Sample.customer Sample.noon
           (Sample.body [Sample.line 1; Item.mk 2%nat 1 None; Sample.line 9] None)
           (Sample.shop (Sample.widget 40 5 true false))
           [Sample.line 1] (Item.mk 2%nat 1 None) [Sample.line 9]
           (ProductNotFound 2%nat)).
  - reflexivity.
  - repeat constructor.
  - reflexivity.
Defined.

(** ** The lines of an order *)

Lemma validateItems_snapshots ps items :
  forall s0 ois0 s ois,
    validateItems ps items s0 ois0 = inr (s, ois) ->
    exists new, ois = ois0 ++ new /\ Forall2 (snapshotOf ps) items new.
Proof.
  induction items as [| item rest IH]; intros s0 ois0 s ois H; simpl in H.
  - inversion H; subst. exists []. rewrite app_nil_r. split; [reflexivity | constructor].
  - destruct (ps !! Item.product item) as [p|] eqn:Hp; [| discriminate H].
    destruct (Product.isActive p) eqn:Ha; simpl in H; [| discriminate H].
    destruct (negb (Product.isInStock p (Item.quantity item)));
      [discriminate H |].
    apply IH in H. destruct H as [new [Ho Hf]].
    eexists (_ :: new). rewrite <- app_assoc in Ho. simpl in Ho.
    split; [exact Ho |]. constructor; [| exact Hf].
    exists p. auto.
Qed.

(** X8.  When every requested line passes the checks of the item loop of
    [createOrder], the line records the loop has built are, one for one
    and in request order, snapshots of the requested lines: each carries
    the requested product id, quantity and variant and the name, first
    image, price and SKU the product has in the store; every such product
    is active; and the subtotal the loop has accumulated is the sum over
    those records of price times quantity. *)
Theorem order_lines_are_snapshots ps (items : list Item.t) (subtotal : Q)
    (ois : list OrderItem.t) :
  validateItems ps items 0%Q [] = inr (subtotal, ois) ->
  Forall2 (snapshotOf ps) items ois /\ subtotal = lineSum ois.
Proof.
  intros H. split.
  - apply validateItems_snapshots in H. destruct H as [new [-> Hf]].
    exact Hf.
  - now apply validateItems_lineSum with ps items.
Qed.

Lemma order_lines_are_snapshots_witness :
  Forall2 (snapshotOf (products twoLineShop)) (Body.items twoLineBody) twoLines
  /\ lineSum twoLines = lineSum twoLines.
Proof.
  apply (order_lines_are_snapshots (products twoLineShop)
           (Body.items twoLineBody) (lineSum twoLines) twoLines).
  vm_compute. reflexivity.
Defined.

Lemma totalItems_fold items :
  forall acc,
    Forall (fun line => 1 <= OrderItem.quantity line) items ->
    acc + Z.of_nat (length items)
    <= fold_left (fun total item => total + OrderItem.quantity item) items acc.
Proof.
  induction items as [| line rest IH]; intros acc Hq; simpl.
  - lia.
  - inversion Hq; subst. specialize (IH (acc + OrderItem.quantity line) H2). lia.
Qed.

(** X9.  Every order document that passes the validators of the order
    schema has lines of quantity 1 or more, so its virtual [totalItems] is
    at least its number of lines. *)
Theorem validated_order_totalItems (o : Order.t) :
  Order.validate o = true ->
  Forall (fun line => 1 <= OrderItem.quantity line) (Order.items o)
  /\ Z.of_nat (length (Order.items o)) <= totalItems o.
Proof.
  intros Hok.
  assert (Hq : Forall (fun line => 1 <= OrderItem.quantity line)
                 (Order.items o)).
  { unfold Order.validate in Hok.
    repeat (apply andb_prop in Hok; destruct Hok as [Hok ?]).
    match goal with H : forallb OrderItem.validate _ = true |- _ =>
      rewrite forallb_forall in H; rename H into Hall end.
    apply List.Forall_forall.
    intros line Hin. specialize (Hall line Hin).
    unfold OrderItem.validate in Hall.
    apply andb_prop in Hall. destruct Hall as [_ Hall]. lia. }
  split; [exact Hq |].
  unfold totalItems.
  pose proof (totalItems_fold (Order.items o) 0 Hq). lia.
Qed.

Lemma validated_order_totalItems_witness :
  Forall (fun line => 1 <= OrderItem.quantity line)
    (Order.items (Populated.order twoLineOrder))
  /\ Z.of_nat (length (Order.items (Populated.order twoLineOrder)))
     <= totalItems (Populated.order twoLineOrder).
Proof.
  apply (validated_order_totalItems (Populated.order twoLineOrder)).
  vm_compute. reflexivity.
Defined.

(** ** What a status update stamps and sends *)

(** X11.  An accepted [updateOrderStatus] stamps [deliveredAt] with the
    time of the call exactly when the requested status is "delivered" and
    [cancelledAt] exactly when it is "cancelled", and otherwise leaves
    each stamp as it was: no update clears a stamp once set.  The
    cancellation reason is set only by a "cancelled" request that carries
    notes. *)
Theorem updateOrderStatus_stamps id now body w o w' o' :
  orders w !! id = Some o ->
  updateOrderStatus id now body w = (w', Updated o') ->
  Order.deliveredAt o' =
    (if String.eqb (StatusBody.orderStatus body) "delivered"
     then Some now else Order.deliveredAt o)
  /\ Order.cancelledAt o' =
       (if String.eqb (StatusBody.orderStatus body) "cancelled"
        then Some now else Order.cancelledAt o)
  /\ Order.cancellationReason o' =
       (if String.eqb (StatusBody.orderStatus body) "cancelled"
           && truthyS (StatusBody.notes body)
        then StatusBody.notes body else Order.cancellationReason o).
Proof.
  intros Ho H. rewrite (updateOrderStatus_run id now body w o Ho) in H.
  cbv zeta in H.
  destruct (inEnum Order.orderStatusEnum (StatusBody.orderStatus body));
    [| discriminate H].
  inversion H; subst; clear H. simpl.
  destruct (String.eqb (StatusBody.orderStatus body) "delivered");
    destruct (String.eqb (StatusBody.orderStatus body) "cancelled");
    simpl; repeat split; try reflexivity;
    unfold keepTruthy, truthyS; destruct (StatusBody.notes body) as [s|];
    simpl; try destruct (negb (String.eqb s "")); reflexivity.
Qed.

Lemma updateOrderStatus_stamps_witness :
  Order.deliveredAt
    (Order.applyUpdate
       (Order.mkUpdate (Some "delivered"%string) None None None None None
          (Some 2000) None None) pendingOrder)
  = Some 2000
  /\ Order.cancelledAt
       (Order.applyUpdate
          (Order.mkUpdate (Some "delivered"%string) None None None None None
             (Some 2000) None None) pendingOrder)
     = Order.cancelledAt pendingOrder
  /\ Order.cancellationReason
       (Order.applyUpdate
          (Order.mkUpdate (Some "delivered"%string) None None None None None
             (Some 2000) None None) pendingOrder)
     = Order.cancellationReason pendingOrder.
Proof.
  apply (updateOrderStatus_stamps 0%nat 2000 (statusRequest "delivered")
           shopWithOrder pendingOrder
           (fst (updateOrderStatus 0%nat 2000 (statusRequest "delivered")
                   shopWithOrder))).
  - vm_compute. reflexivity.
  - vm_compute. reflexivity.
Defined.

(** X12.  An accepted status or payment update hands three messages to
    the emit helpers, which send them, in this order, only when a socket
    server is registered in [global.io]: the update to the room named
    after the value of [order.user], which is the populated user document
    and not the user's id, the same update to the room of the admins'
    orders, and the analytics entry; the updates carry the status before
    and the status requested.  With nothing registered in [global.io],
    or when the call fails (unknown order, value outside the
    enumeration), nothing is sent. *)
Theorem status_update_messages id now w :
  (forall body,
      newMessages w (fst (updateOrderStatus id now body w)) =
      match orders w !! id with
      | Some o =>
          let s := StatusBody.orderStatus body in
          let user := userRef (users w) (Order.user o) in
          if inEnum Order.orderStatusEnum s && io w then
            updateMessages user
              (OrderUpdate (Order._id o) (Order.orderNumber o)
                 (Order.orderStatus o) s (Order.totalAmount o) user)
              (OrderStatusChange (Order._id o) (Order.orderNumber o)
                 (Order.orderStatus o) s (Order.totalAmount o) user)
          else []
      | None => []
      end)
  /\ (forall body,
         newMessages w (fst (updatePaymentStatus id body w)) =
         match orders w !! id with
         | Some o =>
             let s := PaymentBody.paymentStatus body in
             let user := userRef (users w) (Order.user o) in
             if inEnum Order.paymentStatusEnum s && io w then
               updateMessages user
                 (PaymentUpdate (Order._id o) (Order.orderNumber o)
                    (Order.paymentStatus o) s (Order.totalAmount o))
                 (PaymentStatusChange (Order._id o) (Order.orderNumber o)
                    (Order.paymentStatus o) s (Order.totalAmount o))
             else []
         | None => []
         end).
Proof.
  assert (Hnew : forall v l,
             emitted v = emitted w -> io v = io w ->
             newMessages w (sent v l) = if io w then l else []).
  { intros v l He Hi. unfold newMessages, sent. rewrite Hi.
    destruct (io w); simpl; rewrite He;
      [apply drop_app_length | apply drop_all]. }
  split; intros body.
  - destruct (orders w !! id) as [o|] eqn:Ho.
    + rewrite (updateOrderStatus_run id now body w o Ho). cbv zeta.
      destruct (inEnum _ _); simpl; [| apply newMessages_same].
      now rewrite Hnew.
    + unfold updateOrderStatus, tryCatch, Order_findById, mbind, M_bind.
      rewrite Ho. simpl. apply newMessages_same.
  - destruct (orders w !! id) as [o|] eqn:Ho.
    + rewrite (updatePaymentStatus_run id body w o Ho). cbv zeta.
      destruct (inEnum _ _); simpl; [| apply newMessages_same].
      now rewrite Hnew.
    + unfold updatePaymentStatus, tryCatch, Order_findById, mbind, M_bind.
      rewrite Ho. simpl. apply newMessages_same.
Qed.

(** ** Pagination *)

Lemma Qceiling_div (total limit : Z) :
  0 < limit ->
  Qceiling (inject_Z total / inject_Z limit) = - ((- total) / limit).
Proof.
  intros Hl. destruct limit as [| p | p]; try lia.
  unfold Qceiling, Qfloor, Qdiv, Qinv, Qmult, Qopp, inject_Z. simpl.
  rewrite Z.mul_1_r. reflexivity.
Qed.

Lemma totalPages_bounds page limit total :
  1 <= limit ->
  0 <= total ->
  exists n,
    Page.totalPages (Page.pagination page limit total) = Some n
    /\ (n - 1) * limit < total <= n * limit.
Proof.
  intros Hl Ht. unfold Page.pagination. simpl.
  destruct (Z.eqb_spec limit 0) as [Hz | Hz]; [lia |].
  rewrite Qceiling_div by lia.
  exists (- (- total / limit)). split; [reflexivity |].
  pose proof (Z.div_mod (- total) limit ltac:(lia)).
  pose proof (Z.mod_pos_bound (- total) limit ltac:(lia)). nia.
Qed.

(** X14.  For a page number and a limit of at least 1 and a count that is
    not negative, [totalPages] is the least number of pages of [limit]
    entries that hold [total] entries, [hasNextPage] is set exactly when
    the current page is before that last page, and [hasPrevPage] exactly
    when it is after the first. *)
Theorem pagination_consistent page limit total :
  1 <= page ->
  1 <= limit ->
  0 <= total ->
  exists n,
    Page.totalPages (Page.pagination page limit total) = Some n
    /\ (n - 1) * limit < total <= n * limit
    /\ (Page.hasNextPage (Page.pagination page limit total) = true <-> page < n)
    /\ (Page.hasPrevPage (Page.pagination page limit total) = true <-> 1 < page).
Proof.
  intros Hp Hl Ht. unfold Page.pagination, Page.skip. simpl.
  destruct (Z.eqb_spec limit 0) as [Hz | Hz]; [lia |].
  rewrite Qceiling_div by lia.
  set (n := - (- total / limit)).
  assert (Hn : (n - 1) * limit < total <= n * limit).
  { subst n. pose proof (Z.div_mod (- total) limit ltac:(lia)).
    pose proof (Z.mod_pos_bound (- total) limit ltac:(lia)). nia. }
  exists n. split; [reflexivity |]. split; [exact Hn |]. split.
  - rewrite Z.ltb_lt. split; intros H; nia.
  - apply Z.ltb_lt.
Qed.

Lemma pagination_consistent_witness :
  exists n,
    Page.totalPages (Page.pagination 2 10 25) = Some n
    /\ (n - 1) * 10 < 25 <= n * 10
    /\ (Page.hasNextPage (Page.pagination 2 10 25) = true <-> 2 < n)
    /\ (Page.hasPrevPage (Page.pagination 2 10 25) = true <-> 1 < 2).
Proof.
  apply (pagination_consistent 2 10 25); lia.
Defined.

Lemma slice_some {A} (found : list A) page limit :
  1 <= page -> 1 <= limit ->
  Page.slice found page limit
  = Some (take (Z.to_nat limit)
            (drop (Z.to_nat (page - 1) * Z.to_nat limit) found)).
Proof.
  intros Hp Hl. unfold Page.slice, Page.skip.
  destruct (Z.leb_spec 0 ((page - 1) * limit)); [| nia].
  destruct (Z.ltb_spec 0 limit); [| lia]. simpl.
  now rewrite Z2Nat.inj_mul by lia.
Qed.

Lemma concat_slices {A} (l : list A) (k : nat) :
  forall n,
    concat (map (fun i => take k (drop (i * k) l)) (seq 0 n)) = take (n * k) l.
Proof.
  induction n as [| n IH].
  - reflexivity.
  - rewrite seq_S, map_app, concat_app, IH. simpl. rewrite app_nil_r.
    replace (k + n * k)%nat with (n * k + k)%nat by lia.
    now rewrite take_take_drop.
Qed.

(** X15.  For a limit of at least 1 the pages partition what the query
    found: the pages 1 to [totalPages] put one after the other are the
    whole list in order, each page holds at most [limit] entries, and
    every page after the last is empty. *)
Theorem pages_partition {A} (found : list A) (limit page : Z) :
  1 <= limit ->
  1 <= page ->
  exists n entries,
    Page.totalPages (Page.pagination 1 limit (Z.of_nat (length found)))
    = Some (Z.of_nat n)
    /\ concat (map (fun i => default [] (Page.slice found (Z.of_nat (S i)) limit))
                 (seq 0 n)) = found
    /\ Page.slice found page limit = Some entries
    /\ Z.of_nat (length entries) <= limit
    /\ (Z.of_nat n < page -> entries = []).
Proof.
  intros Hl Hp.
  destruct (totalPages_bounds 1 limit (Z.of_nat (length found))
              Hl ltac:(lia)) as (m & Hm & Hb).
  assert (0 <= m) by nia.
  exists (Z.to_nat m). eexists. rewrite Z2Nat.id by lia.
  split; [exact Hm |]. split; [| split; [apply slice_some; lia | split]].
  - rewrite (map_ext _ (fun i => take (Z.to_nat limit)
                                   (drop (i * Z.to_nat limit) found))).
    + rewrite concat_slices. apply take_ge. nia.
    + intros i. rewrite slice_some by lia. simpl.
      replace (Z.to_nat (Z.of_nat (S i) - 1)) with i by lia. reflexivity.
  - rewrite length_take. lia.
  - intros Hlt. rewrite drop_ge; [apply take_nil |]. nia.
Qed.

Lemma pages_partition_witness :
  exists n entries,
    Page.totalPages (Page.pagination 1 2 (Z.of_nat (length [10; 20; 30; 40; 50])))
    = Some (Z.of_nat n)
    /\ concat (map (fun i => default []
                               (Page.slice [10; 20; 30; 40; 50] (Z.of_nat (S i)) 2))
                 (seq 0 n)) = [10; 20; 30; 40; 50]
    /\ Page.slice [10; 20; 30; 40; 50] 3 2 = Some entries
    /\ Z.of_nat (length entries) <= 2
    /\ (Z.of_nat n < 3 -> entries = []).
Proof.
  apply (pages_partition [10; 20; 30; 40; 50] 2 3); lia.
Defined.

(** ** Slugs *)

Module SlugFacts.
Import Slug.

Ltac each_char c :=
  destruct c as [[] [] [] [] [] [] [] []]; vm_compute; auto; try discriminate.

Lemma dash_downcase_slugChar c : slugChar (dash (downcase c)) = true.
Proof. each_char c. Qed.

Lemma slugChar_fixed c : slugChar c = true -> dash (downcase c) = c.
Proof. each_char c. Qed.

Lemma isHyphen_eq c : isHyphen c = true -> c = hyphen.
Proof. unfold isHyphen. now intros H%Ascii.eqb_eq. Qed.

Lemma noDouble_cons c l :
  noDoubleHyphen (c :: l)
  = negb (isHyphen c && startsWithHyphen l) && noDoubleHyphen l.
Proof. destruct l as [| c' r]; simpl; [now rewrite andb_false_r | reflexivity]. Qed.

Lemma startsWith_app l c :
  startsWithHyphen (l ++ [c])
  = match l with [] => isHyphen c | _ => startsWithHyphen l end.
Proof. destruct l; reflexivity. Qed.

Lemma startsWith_snoc_nonempty (l : list ascii) a :
  l <> [] -> startsWithHyphen (l ++ [a]) = startsWithHyphen l.
Proof. destruct l; [contradiction | reflexivity]. Qed.

Lemma noDouble_snoc l c :
  noDoubleHyphen (l ++ [c])
  = noDoubleHyphen l && negb (endsWithHyphen l && isHyphen c).
Proof.
  unfold endsWithHyphen. induction l as [| a l IH].
  - reflexivity.
  - change ((a :: l) ++ [c]) with (a :: (l ++ [c])).
    rewrite !noDouble_cons, IH. simpl rev.
    destruct l as [| b l'].
    + simpl. destruct (isHyphen a), (isHyphen c); reflexivity.
    + rewrite (startsWith_snoc_nonempty (rev (b :: l')) a).
      2:{ intros E. apply (f_equal (@length _)) in E.
          rewrite length_rev in E. discriminate E. }
      change (startsWithHyphen ((b :: l') ++ [c])) with (isHyphen b).
      change (startsWithHyphen (b :: l')) with (isHyphen b).
      generalize (isHyphen a), (isHyphen b), (noDoubleHyphen (b :: l')),
        (startsWithHyphen (rev (b :: l'))), (isHyphen c).
      intros [] [] [] [] []; reflexivity.
Qed.

Lemma noDouble_rev l : noDoubleHyphen (rev l) = noDoubleHyphen l.
Proof.
  induction l as [| c l IH]; [reflexivity |].
  simpl rev. rewrite noDouble_snoc, noDouble_cons, IH.
  unfold endsWithHyphen. rewrite rev_involutive.
  destruct (isHyphen c), (startsWithHyphen l), (noDoubleHyphen l); reflexivity.
Qed.

Lemma forallb_rev {A} (P : A -> bool) l : forallb P (rev l) = forallb P l.
Proof.
  induction l as [| c l IH]; [reflexivity |].
  simpl. rewrite forallb_app, IH. simpl.
  destruct (P c), (forallb P l); reflexivity.
Qed.

(** Collapsing. *)
Lemma collapse_forallb P l : forallb P l = true -> forallb P (collapse l) = true.
Proof.
  induction l as [| c r IH]; [reflexivity |]. simpl.
  intros H. apply andb_prop in H. destruct H as [Hc Hr].
  destruct (isHyphen c).
  - destruct r as [| c' r']; [simpl; now rewrite Hc |].
    destruct (isHyphen c'); [now apply IH |].
    simpl forallb at 1. rewrite Hc. now apply IH.
  - simpl forallb at 1. rewrite Hc. now apply IH.
Qed.

Lemma collapse_starts l : startsWithHyphen (collapse l) = startsWithHyphen l.
Proof.
  induction l as [| c r IH]; [reflexivity |]. simpl.
  destruct (isHyphen c) eqn:Hc.
  - destruct r as [| c' r']; [simpl; exact Hc |].
    destruct (isHyphen c') eqn:Hc'; [| simpl; exact Hc].
    rewrite IH. simpl. exact Hc'.
  - simpl. exact Hc.
Qed.

Lemma collapse_noDouble l : noDoubleHyphen (collapse l) = true.
Proof.
  induction l as [| c r IH]; [reflexivity |]. simpl.
  destruct (isHyphen c) eqn:Hc.
  - destruct r as [| c' r']; [reflexivity |].
    destruct (isHyphen c') eqn:Hc'; [exact IH |].
    rewrite noDouble_cons, IH, collapse_starts. simpl. rewrite Hc'.
    now rewrite andb_false_r.
  - rewrite noDouble_cons, IH, Hc. reflexivity.
Qed.

Lemma collapse_fixed l : noDoubleHyphen l = true -> collapse l = l.
Proof.
  induction l as [| c r IH]; [reflexivity |].
  rewrite noDouble_cons. intros H. apply andb_prop in H. destruct H as [H1 H2].
  simpl. rewrite (IH H2).
  destruct (isHyphen c); [| reflexivity].
  destruct r as [| c' r']; [reflexivity |]. simpl in H1.
  destruct (isHyphen c'); [discriminate H1 | reflexivity].
Qed.

(** Trimming. *)
Lemma stripFirst_forallb P l : forallb P l = true -> forallb P (stripFirst l) = true.
Proof.
  destruct l as [| c r]; [reflexivity |]. simpl. intros H.
  destruct (isHyphen c); [| exact H].
  apply andb_prop in H. tauto.
Qed.

Lemma stripFirst_noDouble l :
  noDoubleHyphen l = true ->
  noDoubleHyphen (stripFirst l) = true /\ startsWithHyphen (stripFirst l) = false.
Proof.
  destruct l as [| c r]; [auto |]. intros H.
  pose proof H as H'. rewrite noDouble_cons in H'.
  unfold stripFirst. destruct (isHyphen c) eqn:Hc.
  - apply andb_prop in H'. destruct H' as [H1 H2].
    split; [exact H2 |]. simpl in H1. now destruct (startsWithHyphen r).
  - split; [exact H | simpl; exact Hc].
Qed.

Lemma trim_wellFormed l :
  forallb slugChar l = true ->
  noDoubleHyphen l = true ->
  wellFormed (trim l) = true.
Proof.
  intros Hc Hd. unfold wellFormed, trim, stripLast, endsWithHyphen.
  rewrite rev_involutive.
  pose proof (stripFirst_noDouble l Hd) as [Hd1 Hs1].
  pose proof (stripFirst_forallb slugChar l Hc) as Hc1.
  set (m := stripFirst l) in *.
  assert (Hdr : noDoubleHyphen (rev m) = true) by now rewrite noDouble_rev.
  pose proof (stripFirst_noDouble (rev m) Hdr) as [Hd2 Hs2].
  assert (Hc2 : forallb slugChar (stripFirst (rev m)) = true).
  { apply stripFirst_forallb. now rewrite forallb_rev. }
  rewrite forallb_rev, Hc2, noDouble_rev, Hd2, Hs2. simpl.
  (* the start of the trimmed list *)
  destruct m as [| a m']; [reflexivity |].
  simpl in Hs1.
  assert (Hstart : startsWithHyphen (rev (stripFirst (rev (a :: m')))) = false).
  { simpl rev at 2. unfold stripFirst.
    destruct (rev m' ++ [a]) as [| x y] eqn:E.
    - reflexivity.
    - destruct (isHyphen x) eqn:Hx.
      + assert (Hl : rev (x :: y) = a :: m').
        { rewrite <- E, rev_app_distr, rev_involutive. reflexivity. }
        simpl in Hl. destruct (rev y) as [| r0 rs] eqn:Ey.
        * simpl in Hl. inversion Hl; subst. congruence.
        * simpl in Hl. inversion Hl; subst. simpl. exact Hs1.
      + rewrite <- E, rev_app_distr, rev_involutive. simpl. exact Hs1. }
  now rewrite Hstart.
Qed.

Lemma trim_fixed l :
  startsWithHyphen l = false -> endsWithHyphen l = false -> trim l = l.
Proof.
  intros Hs He. unfold trim, stripLast.
  assert (H1 : stripFirst l = l).
  { destruct l as [| c r]; [reflexivity |]. simpl in *. now rewrite Hs. }
  rewrite H1. unfold endsWithHyphen in He.
  destruct (rev l) as [| c r] eqn:E.
  - simpl. apply (f_equal (@rev _)) in E. now rewrite rev_involutive in E.
  - simpl in *. rewrite He. rewrite <- E. apply rev_involutive.
Qed.

Lemma chars_wellFormed name : wellFormed (chars name) = true.
Proof.
  unfold chars. apply trim_wellFormed.
  - apply collapse_forallb. rewrite map_map.
    induction name as [| c r IH]; [reflexivity |].
    simpl. now rewrite dash_downcase_slugChar.
  - apply collapse_noDouble.
Qed.

Lemma chars_fixed l : wellFormed l = true -> chars l = l.
Proof.
  unfold wellFormed. intros H.
  repeat (apply andb_prop in H; destruct H as [H ?]).
  unfold chars. rewrite map_map.
  assert (Hm : map (fun c => dash (downcase c)) l = l).
  { clear - H. induction l as [| c r IH]; [reflexivity |].
    simpl in *. apply andb_prop in H. destruct H as [Hc Hr].
    now rewrite (slugChar_fixed c Hc), (IH Hr). }
  rewrite Hm, collapse_fixed by assumption.
  apply trim_fixed.
  - now destruct (startsWithHyphen l).
  - now destruct (endsWithHyphen l).
Qed.

End SlugFacts.

(** X16.  The slug the [pre("save")] hook derives from any name consists
    of lower-case letters, digits and hyphens only, has no two hyphens in
    a row, and neither starts nor ends with a hyphen; deriving the slug of
    a slug gives that slug again. *)
Theorem slug_wellFormed (name : string) :
  Slug.wellFormed (String.list_ascii_of_string (Slug.slugify name)) = true
  /\ Slug.slugify (Slug.slugify name) = Slug.slugify name.
Proof.
  assert (H : Slug.wellFormed (String.list_ascii_of_string (Slug.slugify name))
              = true).
  { unfold Slug.slugify. rewrite String.list_ascii_of_string_of_list_ascii.
    apply SlugFacts.chars_wellFormed. }
  split; [exact H |].
  unfold Slug.slugify at 1. rewrite (SlugFacts.chars_fixed _ H).
  apply String.string_of_list_ascii_of_string.
Qed.

(** X17.  A name that already is a well-formed slug is kept as it is. *)
Theorem slug_fixed (s : string) :
  Slug.wellFormed (String.list_ascii_of_string s) = true ->
  Slug.slugify s = s.
Proof.
  intros Hs. unfold Slug.slugify. rewrite (SlugFacts.chars_fixed _ Hs).
  apply String.string_of_list_ascii_of_string.
Qed.

Lemma slug_fixed_witness : Slug.slugify "usb-c-cable-2m" = "usb-c-cable-2m"%string.
Proof. apply (slug_fixed "usb-c-cable-2m"). reflexivity. Defined.

(** ** Ratings *)

Lemma jsRound_near (x : Q) :
  (x - (1 # 2) < inject_Z (jsRound x) <= x + (1 # 2))%Q.
Proof.
  unfold jsRound.
  pose proof (Qfloor_le (x + (1 # 2))) as H1.
  pose proof (Qlt_floor (x + (1 # 2))) as H2.
  rewrite inject_Z_plus in H2. change (inject_Z 1) with 1%Q in H2.
  split; lra.
Qed.

Lemma jsRound_between (x : Q) (lo hi : Z) :
  (inject_Z lo <= x <= inject_Z hi)%Q -> lo <= jsRound x <= hi.
Proof.
  intros [Hlo Hhi]. pose proof (jsRound_near x) as [H1 H2].
  assert (Ha : (inject_Z lo - 1 < inject_Z (jsRound x))%Q) by lra.
  assert (Hb : (inject_Z (jsRound x) < inject_Z hi + 1)%Q) by lra.
  unfold Qlt, Qminus, Qplus, Qopp, inject_Z in Ha, Hb. simpl in Ha, Hb. lia.
Qed.

Lemma totalRating_fold rs :
  forall acc,
    Forall ratingInRange rs ->
    (acc + inject_Z (Z.of_nat (length rs))
     <= fold_left (fun sum review => sum + Review.rating review) rs acc
     <= acc + 5 * inject_Z (Z.of_nat (length rs)))%Q.
Proof.
  induction rs as [| r rs IH]; intros acc H.
  - simpl. change (inject_Z (Z.of_nat 0)) with 0%Q. lra.
  - inversion H as [| ? ? [Hr1 Hr2] Hrest]; subst.
    specialize (IH (acc + Review.rating r)%Q Hrest).
    cbn [fold_left length].
    rewrite Nat2Z.inj_succ, <- Z.add_1_r, inject_Z_plus.
    change (inject_Z 1) with 1%Q. lra.
Qed.

Lemma mean_in_range rs :
  rs <> [] ->
  Forall ratingInRange rs ->
  (1 <= Listing.totalRating rs / inject_Z (Z.of_nat (length rs)) <= 5)%Q.
Proof.
  intros Hne H. pose proof (totalRating_fold rs 0%Q H) as [H1 H2].
  fold (Listing.totalRating rs) in H1, H2.
  assert (Hn : (0 < inject_Z (Z.of_nat (length rs)))%Q).
  { rewrite <- (Zlt_Qlt 0). destruct rs; [contradiction | simpl; lia]. }
  split.
  - apply Qle_shift_div_l; [exact Hn | lra].
  - apply Qle_shift_div_r; [exact Hn | lra].
Qed.

(** X18.  For a product with at least one review and every rating between
    1 and 5, [updateRating] sets [totalReviews] to the number of reviews
    and [averageRating] to a value between 1 and 5. *)
Theorem updateRating_range (p : Listing.t) :
  Listing.reviews p <> [] ->
  Forall ratingInRange (Listing.reviews p) ->
  Listing.totalReviews (Listing.updateRating p)
  = Z.of_nat (length (Listing.reviews p))
  /\ (1 <= Listing.averageRating (Listing.updateRating p) <= 5)%Q.
Proof.
  intros Hne Hr. unfold Listing.updateRating.
  destruct (Nat.eqb_spec (length (Listing.reviews p)) 0) as [E | E].
  { destruct (Listing.reviews p); [contradiction | discriminate E]. }
  simpl.
  pose proof (mean_in_range _ Hne Hr) as Hm.
  set (mean := (Listing.totalRating (Listing.reviews p)
                / inject_Z (Z.of_nat (length (Listing.reviews p))))%Q) in *.
  assert (Hb : 10 <= jsRound (mean * 10) <= 50).
  { apply jsRound_between.
    change (inject_Z 10) with 10%Q. change (inject_Z 50) with 50%Q. lra. }
  destruct Hb as [Hb1 Hb2].
  rewrite Zle_Qle in Hb1, Hb2.
  change (inject_Z 10) with 10%Q in Hb1. change (inject_Z 50) with 50%Q in Hb2.
  split; [reflexivity |].
  unfold Qdiv at 1 2. change (/ 10)%Q with (1 # 10)%Q. lra.
Qed.

Lemma updateRating_range_witness :
  Listing.totalReviews (Listing.updateRating sampleListing)
  = Z.of_nat (length (Listing.reviews sampleListing))
  /\ (1 <= Listing.averageRating (Listing.updateRating sampleListing) <= 5)%Q.
Proof.
  apply (updateRating_range sampleListing).
  - discriminate.
  - repeat constructor; simpl; lra.
Defined.

(** ** Adding a review *)

Lemma validate_ratingInRange rs :
  forallb Review.validate rs = true -> Forall ratingInRange rs.
Proof.
  rewrite forallb_forall. intros H. apply List.Forall_forall. intros r Hin.
  specialize (H r Hin). unfold Review.validate in H.
  repeat (apply andb_prop in H; destruct H as [H ?]).
  split; now apply Qle_bool_iff.
Qed.

Lemma find_none_iff userId rs :
  List.find (fun review => Nat.eqb (Review.user review) userId) rs = None
  <-> ~ In userId (map Review.user rs).
Proof.
  induction rs as [| r rs IH]; simpl.
  - tauto.
  - destruct (Nat.eqb_spec (Review.user r) userId) as [E | E].
    + split; [discriminate | intros H; exfalso; apply H; now left].
    + rewrite IH. tauto.
Qed.

Lemma averageRating_range p :
  Listing.reviews p <> [] ->
  Forall ratingInRange (Listing.reviews p) ->
  (1 <= Listing.averageRating (Listing.updateRating p) <= 5)%Q.
Proof.
  intros Hne Hr. unfold Listing.updateRating.
  destruct (Nat.eqb_spec (length (Listing.reviews p)) 0) as [E | E].
  { destruct (Listing.reviews p); [contradiction | discriminate E]. }
  simpl.
  pose proof (mean_in_range _ Hne Hr) as Hm.
  set (mean := (Listing.totalRating (Listing.reviews p)
                / inject_Z (Z.of_nat (length (Listing.reviews p))))%Q) in *.
  assert (Hb : 10 <= jsRound (mean * 10) <= 50).
  { apply jsRound_between.
    change (inject_Z 10) with 10%Q. change (inject_Z 50) with 50%Q. lra. }
  destruct Hb as [Hb1 Hb2]. rewrite Zle_Qle in Hb1, Hb2.
  change (inject_Z 10) with 10%Q in Hb1. change (inject_Z 50) with 50%Q in Hb2.
  unfold Qdiv at 1 2. change (/ 10)%Q with (1 # 10)%Q. lra.
Qed.

(** X19.  [addReview] by a user who has not reviewed the product yet, with
    a rating between 1 and 5 and a comment of 1 to 500 characters, on a
    product whose stored reviews are valid, always succeeds: the review is
    appended, [totalReviews] becomes the new number of reviews, and the
    recomputed [averageRating] lies between 1 and 5, so the save is never
    rejected on its account. *)
Theorem addReview_accepted id userId rating comment catalogue p :
  catalogue !! id = Some p ->
  ~ In userId (map Review.user (Listing.reviews p)) ->
  forallb Review.validate (Listing.reviews p) = true ->
  (1 <= rating <= 5)%Q ->
  comment <> ""%string ->
  (String.length comment <= 500)%nat ->
  exists p',
    addReview id userId rating comment catalogue
    = (<[id := p']> catalogue, ReviewAdded p')
    /\ Listing.reviews p'
       = Listing.reviews p ++ [Review.mk userId rating comment false]
    /\ Listing.totalReviews p' = Z.of_nat (length (Listing.reviews p)) + 1
    /\ (1 <= Listing.averageRating p' <= 5)%Q.
Proof.
  intros Hp Hu Hv Hr Hc Hl. unfold addReview. rewrite Hp.
  apply find_none_iff in Hu. rewrite Hu.
  set (r := Review.mk userId rating comment false).
  set (q := Listing.pushReview p r).
  assert (Hrv : Review.validate r = true).
  { unfold Review.validate. simpl.
    destruct Hr as [Hr1 Hr2].
    rewrite (proj2 (Qle_bool_iff 1 rating) Hr1),
      (proj2 (Qle_bool_iff rating 5) Hr2).
    destruct (String.eqb_spec comment ""); [contradiction |]. simpl.
    now apply Nat.leb_le. }
  assert (Hqv : forallb Review.validate (Listing.reviews q) = true).
  { subst q. simpl. rewrite forallb_app, Hv. simpl. now rewrite Hrv. }
  assert (Hne : Listing.reviews q <> []).
  { subst q. simpl. destruct (Listing.reviews p); discriminate. }
  pose proof (averageRating_range q Hne (validate_ratingInRange _ Hqv)) as Ha.
  assert (Hrs : Listing.reviews (Listing.updateRating q) = Listing.reviews q).
  { unfold Listing.updateRating. destruct (_ =? _)%nat; reflexivity. }
  assert (Hok : Listing.validate (Listing.updateRating q) = true).
  { unfold Listing.validate. rewrite Hrs, Hqv. destruct Ha as [Ha1 Ha2].
    rewrite (proj2 (Qle_bool_iff _ _) Ha2).
    assert (H0 : (0 <= Listing.averageRating (Listing.updateRating q))%Q) by lra.
    now rewrite (proj2 (Qle_bool_iff _ _) H0). }
  rewrite Hok. exists (Listing.updateRating q).
  split; [reflexivity |]. split; [exact Hrs |]. split; [| exact Ha].
  unfold Listing.updateRating.
  destruct (Nat.eqb_spec (length (Listing.reviews q)) 0) as [E | E].
  { destruct (Listing.reviews q); [contradiction | discriminate E]. }
  simpl. rewrite length_app. simpl. lia.
Qed.

Lemma addReview_accepted_witness :
  exists p',
    addReview 1%nat 9%nat 3 "Fine" sampleCatalogue
    = (<[1%nat := p']> sampleCatalogue, ReviewAdded p')
    /\ Listing.reviews p'
       = Listing.reviews sampleListing ++ [Review.mk 9%nat 3 "Fine" false]
    /\ Listing.totalReviews p'
       = Z.of_nat (length (Listing.reviews sampleListing)) + 1
    /\ (1 <= Listing.averageRating p' <= 5)%Q.
Proof.
  apply (addReview_accepted 1%nat 9%nat 3%Q "Fine" sampleCatalogue sampleListing).
  - reflexivity.
  - simpl. lia.
  - reflexivity.
  - lra.
  - discriminate.
  - simpl. lia.
Defined.

(** X20.  Whatever [addReview] answers, the reviews of the product keep
    pairwise distinct authors; a user who has already reviewed it is
    refused and the catalogue is left as it was. *)
Theorem addReview_one_per_user id userId rating comment catalogue p :
  catalogue !! id = Some p ->
  NoDup (map Review.user (Listing.reviews p)) ->
  (exists p',
      fst (addReview id userId rating comment catalogue) !! id = Some p'
      /\ NoDup (map Review.user (Listing.reviews p')))
  /\ (In userId (map Review.user (Listing.reviews p)) ->
      addReview id userId rating comment catalogue = (catalogue, AlreadyReviewed)).
Proof.
  intros Hp Hnd. unfold addReview. rewrite Hp.
  destruct (List.find _ (Listing.reviews p)) as [r|] eqn:Hf.
  - split; [exists p; auto |]. reflexivity.
  - apply find_none_iff in Hf. split; [| contradiction].
    destruct (Listing.validate _) eqn:Hv; simpl; [| exists p; auto].
    rewrite lookup_insert_eq. eexists. split; [reflexivity |].
    assert (Hrs : forall q, Listing.reviews (Listing.updateRating q)
                            = Listing.reviews q).
    { intros q. unfold Listing.updateRating. destruct (_ =? _)%nat; reflexivity. }
    rewrite Hrs. simpl. rewrite map_app. simpl.
    apply NoDup_app. split; [exact Hnd |]. split.
    + intros x Hx Hx'. apply list_elem_of_In in Hx.
      apply list_elem_of_singleton in Hx'. subst x. contradiction.
    + apply NoDup_singleton.
Qed.

Lemma addReview_one_per_user_witness :
  (exists p',
      fst (addReview 1%nat 7%nat 2 "Again" sampleCatalogue) !! 1%nat = Some p'
      /\ NoDup (map Review.user (Listing.reviews p')))
  /\ (In 7%nat (map Review.user (Listing.reviews sampleListing)) ->
      addReview 1%nat 7%nat 2 "Again" sampleCatalogue
      = (sampleCatalogue, AlreadyReviewed)).
Proof.
  apply (addReview_one_per_user 1%nat 7%nat 2%Q "Again" sampleCatalogue
           sampleListing).
  - reflexivity.
  - simpl. apply NoDup_cons. split; [| apply NoDup_singleton].
    intros H. apply list_elem_of_singleton in H. discriminate H.
Defined.

(** ** Discount percentage *)

(** X21.  For a price that is not negative the virtual
    [discountPercentage] is a whole number between 0 and 100, and it is 0
    when there is no compare price or the compare price does not exceed
    the price. *)
Theorem discountPercentage_range (p : Listing.t) :
  (0 <= Product.price (Listing.product p))%Q ->
  0 <= Listing.discountPercentage p <= 100
  /\ (match Listing.comparePrice p with
      | Some cp => Qle_bool cp (Product.price (Listing.product p))
      | None => true
      end = true -> Listing.discountPercentage p = 0).
Proof.
  intros Hp. unfold Listing.discountPercentage.
  destruct (Listing.comparePrice p) as [cp|]; [| split; [lia | reflexivity]].
  destruct (truthyQ (Some cp)); simpl.
  2:{ split; [lia | reflexivity]. }
  set (price := Product.price (Listing.product p)) in *.
  destruct (Qltb price cp) eqn:El.
  - apply Qltb_true in El. split.
    + apply jsRound_between.
      change (inject_Z 0) with 0%Q. change (inject_Z 100) with 100%Q.
      assert (Hcp : (0 < cp)%Q) by lra.
      assert (H1 : (0 <= (cp - price) / cp)%Q)
        by (apply Qle_shift_div_l; [exact Hcp | lra]).
      assert (H2 : ((cp - price) / cp <= 1)%Q)
        by (apply Qle_shift_div_r; [exact Hcp | lra]).
      lra.
    + intros Hle. apply Qle_bool_iff in Hle. lra.
  - split; [lia | reflexivity].
Qed.

Lemma discountPercentage_range_witness :
  0 <= Listing.discountPercentage sampleListing <= 100
  /\ (match Listing.comparePrice sampleListing with
      | Some cp => Qle_bool cp (Product.price (Listing.product sampleListing))
      | None => true
      end = true -> Listing.discountPercentage sampleListing = 0).
Proof.
  apply (discountPercentage_range sampleListing). simpl. lra.
Defined.

(** ** The socket rate limiter *)

Lemma serve_counted maxEvents windowMs id events :
  forall clients k R,
    clients !! id = Some (RateLimit.mkClient k R) ->
    Forall (fun e => fst e = id -> snd e <= R) events ->
    passedOf id (serve maxEvents windowMs events clients)
    = Z.min (eventsOf id events) (Z.max 0 (maxEvents - k)).
Proof.
  unfold passedOf, eventsOf.
  induction events as [| [c now] rest IH]; intros clients k R Hc Ht.
  - simpl. lia.
  - inversion Ht as [| ? ? Hnow Hrest]; subst. simpl in Hnow.
    cbn [serve]. unfold RateLimit.limiter.
    destruct (String.eqb_spec c id) as [-> | Hne].
    + rewrite Hc. cbn [RateLimit.resetTime RateLimit.count].
      specialize (Hnow eq_refl).
      destruct (Z.ltb_spec R now) as [Hlt | _]; [lia |].
      destruct (Z.leb_spec maxEvents k) as [Hle | Hgt].
      * cbn [List.filter fst snd]. rewrite String.eqb_refl. cbn [andb].
        cbn [length]. rewrite ?Nat2Z.inj_succ.
        rewrite (IH clients k R Hc Hrest). lia.
      * cbn [List.filter fst snd]. rewrite String.eqb_refl. cbn [andb].
        cbn [length]. rewrite ?Nat2Z.inj_succ.
        rewrite (IH _ (k + 1) R (lookup_insert_eq _ _ _) Hrest). lia.
    + assert (Hkeep : forall v, <[c := v]> clients !! id
                                = Some (RateLimit.mkClient k R))
        by (intros v; rewrite lookup_insert_ne; [exact Hc | exact Hne]).
      assert (Hf : String.eqb c id = false) by (now apply String.eqb_neq).
      destruct (clients !! c) as [cl |] eqn:Ecl.
      * destruct (RateLimit.resetTime cl <? now);
          [| destruct (maxEvents <=? RateLimit.count cl)];
          cbn [List.filter fst snd]; rewrite Hf; cbn [andb];
          first [ apply (IH _ k R (Hkeep _) Hrest) | apply (IH _ k R Hc Hrest) ].
      * cbn [List.filter fst snd]. rewrite Hf. cbn [andb].
        apply (IH _ k R (Hkeep _) Hrest).
Qed.

(** X22.  A client the limiter has not seen sends an event at [t0] and
    then more events no later than [t0 + windowMs], interleaved with the
    events of other clients.  Of its events exactly the first
    [max 1 maxEvents] pass: never more than that, and none is refused
    before that many have passed.  The first event always passes, also
    when [maxEvents] is 0. *)
Theorem limiter_window_quota maxEvents windowMs id t0 events clients :
  clients !! id = None ->
  Forall (fun e => fst e = id -> snd e <= t0 + windowMs) events ->
  passedOf id (serve maxEvents windowMs ((id, t0) :: events) clients)
  = Z.min (eventsOf id ((id, t0) :: events)) (Z.max 1 maxEvents).
Proof.
  intros Hc Ht. cbn [serve]. unfold RateLimit.limiter. rewrite Hc.
  pose proof (serve_counted maxEvents windowMs id events
                (<[id := RateLimit.mkClient 1 (t0 + windowMs)]> clients)
                1 (t0 + windowMs) (lookup_insert_eq _ _ _) Ht) as H.
  unfold passedOf, eventsOf in *. cbv zeta.
  cbn [List.filter fst snd]. rewrite String.eqb_refl. cbn [andb length].
  rewrite ?Nat2Z.inj_succ. rewrite H. lia.
Qed.

Lemma limiter_window_quota_witness :
  passedOf "u1"
    (serve 2 60000
       (("u1", 0) :: [("u2", 5); ("u1", 10); ("u1", 20); ("u1", 60000)]) ∅)
  = Z.min (eventsOf "u1"
             (("u1", 0) :: [("u2", 5); ("u1", 10); ("u1", 20); ("u1", 60000)]))
          (Z.max 1 2).
Proof.
  apply (limiter_window_quota 2 60000 "u1" 0
           [("u2", 5); ("u1", 10); ("u1", 20); ("u1", 60000)] ∅).
  - reflexivity.
  - repeat (constructor; [simpl; intros _; lia |]). constructor.
Defined.

(** ** Socket rooms *)

Lemma onEvent_fields socket e :
  Socket.userId (onEvent socket e) = Socket.userId socket
  /\ Socket.userRole (onEvent socket e) = Socket.userRole socket.
Proof.
  destruct e; simpl; try (destruct (String.eqb _ _)); auto.
Qed.

Lemma fold_onEvent_fields events socket :
  Socket.userId (fold_left onEvent events socket) = Socket.userId socket
  /\ Socket.userRole (fold_left onEvent events socket) = Socket.userRole socket.
Proof.
  revert socket. induction events as [| e rest IH]; intros socket; simpl.
  - auto.
  - destruct (IH (onEvent socket e)) as [-> ->]. apply onEvent_fields.
Qed.

Lemma onEvent_rooms socket e :
  (forall room, room ∈ Socket.rooms socket -> roomAllowed socket room) ->
  roomsKept socket ->
  (forall room, room ∈ Socket.rooms (onEvent socket e) ->
                roomAllowed (onEvent socket e) room)
  /\ roomsKept (onEvent socket e).
Proof.
  intros Hall [Hu Ha]. unfold roomAllowed, roomsKept in *.
  destruct e as [p | p |]; simpl.
  - split.
    + intros room Hin. apply elem_of_union in Hin as [Hin | Hin].
      * apply elem_of_singleton in Hin. right. right. now exists p.
      * now apply Hall.
    + split; [set_solver | intros H; specialize (Ha H); set_solver].
  - split.
    + intros room Hin. apply elem_of_difference in Hin as [Hin _].
      now apply Hall.
    + split.
      * apply elem_of_difference. split; [exact Hu |].
        intros H. apply elem_of_singleton in H. discriminate H.
      * intros H. apply elem_of_difference. split; [now apply Ha |].
        intros H'. apply elem_of_singleton in H'. discriminate H'.
  - destruct (String.eqb_spec (Socket.userRole socket) "admin") as [E | E];
      simpl.
    + split.
      * intros room Hin. apply elem_of_union in Hin as [Hin | Hin].
        -- apply elem_of_singleton in Hin. right. left. auto.
        -- now apply Hall.
      * split; [set_solver | intros H; specialize (Ha H); set_solver].
    + split; [exact Hall | split; assumption].
Qed.

Lemma onConnection_rooms userId userRole :
  let socket := onConnection (Socket.mk userId userRole ∅) in
  (forall room, room ∈ Socket.rooms socket -> roomAllowed socket room)
  /\ roomsKept socket.
Proof.
  unfold onConnection, roomAllowed, roomsKept. simpl.
  destruct (String.eqb_spec userRole "admin") as [E | E]; simpl.
  - split.
    + intros room Hin. apply elem_of_union in Hin as [Hin | Hin].
      * apply elem_of_singleton in Hin. right. left. auto.
      * apply elem_of_union in Hin as [Hin | Hin]; [| set_solver].
        apply elem_of_singleton in Hin. now left.
    + split; [set_solver | intros _; set_solver].
  - split.
    + intros room Hin. apply elem_of_union in Hin as [Hin | Hin]; [| set_solver].
      apply elem_of_singleton in Hin. now left.
    + split; [set_solver | intros H; contradiction].
Qed.

Lemma session_rooms userId userRole events :
  let socket := session userId userRole events in
  Socket.userId socket = userId
  /\ Socket.userRole socket = userRole
  /\ (forall room, room ∈ Socket.rooms socket -> roomAllowed socket room)
  /\ roomsKept socket.
Proof.
  unfold session.
  assert (H : forall socket,
             (forall room, room ∈ Socket.rooms socket -> roomAllowed socket room) ->
             roomsKept socket ->
             (forall room, room ∈ Socket.rooms (fold_left onEvent events socket) ->
                           roomAllowed (fold_left onEvent events socket) room)
             /\ roomsKept (fold_left onEvent events socket)).
  { induction events as [| e rest IH]; intros socket Hall Hk; simpl.
    - auto.
    - destruct (onEvent_rooms socket e Hall Hk) as [Hall' Hk'].
      now apply IH. }
  destruct (onConnection_rooms userId userRole) as [Hall Hk].
  destruct (fold_onEvent_fields events
              (onConnection (Socket.mk userId userRole ∅))) as [Hid Hrole].
  cbv zeta. rewrite Hid, Hrole.
  split; [| split; [| now apply H]].
  - unfold onConnection. simpl. now destruct (String.eqb _ _).
  - unfold onConnection. simpl. now destruct (String.eqb _ _).
Qed.

(** X23.  Whatever a client sends after connecting, its socket is in the
    room that the order updates of a user are addressed to exactly when it
    is authenticated as that user: no subscription puts it in another
    user's room, and no unsubscription takes it out of its own. *)
Theorem order_updates_reach_their_user userId userRole events target :
  orderUpdateRoom target ∈ Socket.rooms (session userId userRole events)
  <-> target = userId.
Proof.
  destruct (session_rooms userId userRole events) as (Hid & Hrole & Hall & Hk).
  unfold orderUpdateRoom. split.
  - intros Hin. apply Hall in Hin.
    destruct Hin as [H | [[_ [H | H]] | [p H]]].
    + rewrite Hid in H. simpl in H. now injection H.
    + discriminate H.
    + discriminate H.
    + discriminate H.
  - intros ->. destruct Hk as [Hu _]. now rewrite Hid in Hu.
Qed.

(** X24.  A socket whose role is not "admin" is never in the room
    analytics updates are sent to, nor in "admin_room"; an admin's socket
    is in "admin_room" throughout. *)
Theorem admin_rooms_hold_admins_only userId userRole events :
  let socket := session userId userRole events in
  ("admin_room" ∈ Socket.rooms socket <-> userRole = "admin")
  /\ (adminAnalyticsRoom ∈ Socket.rooms socket -> userRole = "admin").
Proof.
  destruct (session_rooms userId userRole events) as (Hid & Hrole & Hall & Hk).
  cbv zeta. unfold adminAnalyticsRoom. split; [split |].
  - intros Hin. apply Hall in Hin.
    destruct Hin as [H | [[Ha _] | [p H]]].
    + discriminate H.
    + now rewrite Hrole in Ha.
    + discriminate H.
  - intros E. destruct Hk as [_ Ha]. apply Ha. now rewrite Hrole.
  - intros Hin. apply Hall in Hin.
    destruct Hin as [H | [[Ha _] | [p H]]].
    + discriminate H.
    + now rewrite Hrole in Ha.
    + discriminate H.
Qed.

(** ** Deleting a category *)


Lemma countDocuments_none {A} (P : A -> bool) (m : gmap ObjectId A) :
  (forall k v, m !! k = Some v -> P v = false) ->
  countDocuments P m = 0.
Proof.
  intros H. unfold countDocuments.
  destruct (List.filter _ _) as [| [k v] l] eqn:E; [reflexivity |].
  assert (Hin : In (k, v) (List.filter (fun kv => P (snd kv)) (map_to_list m)))
    by (rewrite E; now left).
  apply filter_In in Hin as [Hin HP]. simpl in HP.
  apply list_elem_of_In, elem_of_map_to_list in Hin.
  rewrite (H k v Hin) in HP. discriminate.
Qed.



Lemma sampleCategories_consistent : consistent sampleCategories.
Proof.
  split.
  - apply map_Forall_insert_2; [| apply map_Forall_empty]. now eexists.
  - apply map_Forall_insert_2; [exact I |].
    apply map_Forall_insert_2; [now eexists |].
    apply map_Forall_insert_2; [exact I | apply map_Forall_empty].
Defined.


(** X26.  In a consistent catalogue, deleting an id that names no stored
    category is answered "deleted" and changes nothing: [deleteCategory]
    has no "not found" answer. *)
Theorem deleteCategory_missing_id id st :
  consistent st ->
  categories st !! id = None ->
  snd (deleteCategory id st) = CategoryDeleted
  /\ categories (fst (deleteCategory id st)) = categories st
  /\ productRefs (fst (deleteCategory id st)) = productRefs st.
Proof.
  intros [Hp Hc] Hid. unfold deleteCategory.
  rewrite countDocuments_none.
  2:{ intros k p Hk. apply Nat.eqb_neq. intros E.
      destruct (Hp k p Hk) as [x Hx]. simpl in Hx. congruence. }
  rewrite countDocuments_none.
  2:{ intros k c Hk. specialize (Hc k c Hk). simpl in Hc.
      destruct (Category.parent c) as [p |]; [| reflexivity].
      apply Nat.eqb_neq. intros ->. destruct Hc as [x Hx]. congruence. }
  simpl. split; [reflexivity |]. split; [| reflexivity].
  now apply delete_id.
Qed.

Lemma deleteCategory_missing_id_witness :
  snd (deleteCategory 5%nat sampleCategories) = CategoryDeleted
  /\ categories (fst (deleteCategory 5%nat sampleCategories))
     = categories sampleCategories
  /\ productRefs (fst (deleteCategory 5%nat sampleCategories))
     = productRefs sampleCategories.
Proof.
  apply (deleteCategory_missing_id 5%nat sampleCategories).
  - exact sampleCategories_consistent.
  - reflexivity.
Defined.

(** ** The category tree *)

Lemma firstPass_fold_other (cs : list (ObjectId * Category.t)) :
  forall m id,
    ~ In id (map fst cs) ->
    fold_left register cs m !! id = m !! id.
Proof.
  induction cs as [| [k v] rest IH]; intros m id Hn; simpl in *.
  - reflexivity.
  - rewrite IH by tauto. unfold register. simpl.
    apply lookup_insert_ne. intros E. apply Hn. now left.
Qed.

Lemma firstPass_fold_in (cs : list (ObjectId * Category.t)) :
  forall m id c,
    NoDup (map fst cs) -> In (id, c) cs ->
    fold_left register cs m !! id = Some (TreeNode.mk c []).
Proof.
  induction cs as [| [k v] rest IH]; intros m id c Hnd Hin; simpl in *.
  - contradiction.
  - apply NoDup_cons in Hnd as [Hk Hnd]. destruct Hin as [E | Hin].
    + injection E as -> ->. rewrite firstPass_fold_other.
      * unfold register. simpl. apply lookup_insert_eq.
      * intros H. apply Hk. now apply list_elem_of_In.
    + now apply IH.
Qed.

Lemma firstPass_lookup cs id c :
  NoDup (map fst cs) -> In (id, c) cs ->
  firstPass cs !! id = Some (TreeNode.mk c []).
Proof. apply firstPass_fold_in. Qed.

Lemma firstPass_lookup_None cs id :
  ~ In id (map fst cs) -> firstPass cs !! id = None.
Proof.
  intros H. unfold firstPass. rewrite firstPass_fold_other by exact H.
  apply lookup_empty.
Qed.

Lemma rootsOf_cons category rest :
  rootsOf (category :: rest)
  = if isRoot category then fst category :: rootsOf rest else rootsOf rest.
Proof. unfold rootsOf. simpl. now destruct (isRoot category). Qed.

Lemma childrenOf_cons p category rest :
  childrenOf p (category :: rest)
  = if hasParent p category then fst category :: childrenOf p rest
    else childrenOf p rest.
Proof. unfold childrenOf. simpl. now destruct (hasParent p category). Qed.

Lemma secondPass_fold (rest : list (ObjectId * Category.t)) :
  forall m tree,
    snd (fold_left attach rest (m, tree)) = tree ++ rootsOf rest
    /\ forall p, fst (fold_left attach rest (m, tree)) !! p
                 = adopt p rest <$> (m !! p).
Proof.
  induction rest as [| [id c] rest IH]; intros m tree.
  - simpl. split; [now rewrite app_nil_r |].
    intros p. unfold adopt, childrenOf. simpl.
    destruct (m !! p) as [[cat ch] |]; simpl; [| reflexivity].
    now rewrite app_nil_r.
  - cbn [fold_left]. rewrite rootsOf_cons.
    unfold isRoot, attach at 2 4. cbn [fst snd].
    destruct (Category.parent c) as [q |] eqn:Ep.
    + destruct (m !! q) as [parent |] eqn:Eq.
      * destruct (IH (<[q := TreeNode.mk (TreeNode.category parent)
                              (TreeNode.children parent ++ [id])]> m) tree)
          as [Ht Hm].
        split; [exact Ht |]. intros p. rewrite Hm.
        unfold adopt. rewrite childrenOf_cons. unfold hasParent.
        cbn [fst snd]. rewrite Ep.
        destruct (Nat.eqb_spec q p) as [-> | Hne].
        -- rewrite lookup_insert_eq, Eq. simpl. now rewrite <- app_assoc.
        -- rewrite lookup_insert_ne by exact Hne. reflexivity.
      * destruct (IH m tree) as [Ht Hm]. split; [exact Ht |].
        intros p. rewrite Hm.
        unfold adopt. rewrite childrenOf_cons. unfold hasParent.
        cbn [fst snd]. rewrite Ep.
        destruct (Nat.eqb_spec q p) as [-> | Hne]; [| reflexivity].
        now rewrite Eq.
    + destruct (IH m (tree ++ [id])) as [Ht Hm]. split.
      * rewrite Ht. now rewrite <- app_assoc.
      * intros p. rewrite Hm.
        unfold adopt. rewrite childrenOf_cons. unfold hasParent.
        cbn [fst snd]. now rewrite Ep.
Qed.

Lemma secondPass_tree cs :
  snd (secondPass cs (firstPass cs)) = rootsOf cs.
Proof.
  unfold secondPass. now destruct (secondPass_fold cs (firstPass cs) []) as [-> _].
Qed.

Lemma secondPass_lookup cs id c :
  NoDup (map fst cs) -> In (id, c) cs ->
  fst (secondPass cs (firstPass cs)) !! id
  = Some (TreeNode.mk c (childrenOf id cs)).
Proof.
  intros Hnd Hin. unfold secondPass.
  destruct (secondPass_fold cs (firstPass cs) []) as [_ ->].
  now rewrite (firstPass_lookup cs id c Hnd Hin).
Qed.

Lemma secondPass_lookup_None cs id :
  ~ In id (map fst cs) ->
  fst (secondPass cs (firstPass cs)) !! id = None.
Proof.
  intros H. unfold secondPass.
  destruct (secondPass_fold cs (firstPass cs) []) as [_ ->].
  now rewrite firstPass_lookup_None.
Qed.

Lemma In_fst (cs : list (ObjectId * Category.t)) id c :
  In (id, c) cs -> In id (map fst cs).
Proof. intros H. apply in_map_iff. now exists (id, c). Qed.

Lemma category_unique (cs : list (ObjectId * Category.t)) id c c' :
  NoDup (map fst cs) -> In (id, c) cs -> In (id, c') cs -> c = c'.
Proof.
  induction cs as [| [k v] rest IH]; intros Hnd H1 H2; simpl in *.
  - contradiction.
  - apply NoDup_cons in Hnd as [Hk Hnd].
    destruct H1 as [E1 | H1], H2 as [E2 | H2].
    + congruence.
    + injection E1 as -> ->. exfalso. apply Hk.
      apply list_elem_of_In. now apply (In_fst rest id c').
    + injection E2 as -> ->. exfalso. apply Hk.
      apply list_elem_of_In. now apply (In_fst rest id c).
    + now apply IH.
Qed.

Lemma childrenOf_In cs p x :
  In x (childrenOf p cs) <->
  exists c, In (x, c) cs /\ Category.parent c = Some p.
Proof.
  unfold childrenOf. rewrite in_map_iff. split.
  - intros [[k c] [<- H]]. apply filter_In in H as [Hin Hp].
    unfold hasParent in Hp. simpl in *.
    destruct (Category.parent c) as [q |] eqn:E; [| discriminate].
    apply Nat.eqb_eq in Hp as ->. now exists c.
  - intros [c [Hin Hp]]. exists (x, c). split; [reflexivity |].
    apply filter_In. split; [exact Hin |].
    unfold hasParent. simpl. rewrite Hp. apply Nat.eqb_refl.
Qed.

Lemma rootsOf_In cs x :
  In x (rootsOf cs) <-> exists c, In (x, c) cs /\ Category.parent c = None.
Proof.
  unfold rootsOf. rewrite in_map_iff. split.
  - intros [[k c] [<- H]]. apply filter_In in H as [Hin Hp].
    unfold isRoot in Hp. simpl in *.
    destruct (Category.parent c) eqn:E; [discriminate |]. now exists c.
  - intros [c [Hin Hp]]. exists (x, c). split; [reflexivity |].
    apply filter_In. split; [exact Hin |].
    unfold isRoot. simpl. now rewrite Hp.
Qed.

(** *** Paths to the root *)

Lemma attached_chain cs id :
  attached cs id <-> exists l, chain cs id l.
Proof.
  split.
  - induction 1 as [id c Hin Hp | id c p Hin Hp _ [l Hl]].
    + exists [id]. now apply chain_root with c.
    + exists (id :: l). now apply chain_child with c p.
  - intros [l H]. induction H as [id c Hin Hp | id c p l Hin Hp _ IH].
    + now apply attached_root with c.
    + now apply attached_child with c p.
Qed.

Lemma chain_unique cs id l1 l2 :
  NoDup (map fst cs) -> chain cs id l1 -> chain cs id l2 -> l1 = l2.
Proof.
  intros Hnd H1. revert l2.
  induction H1 as [id c Hin Hp | id c p l Hin Hp _ IH]; intros l2 H2;
    inversion H2 as [? c' Hin' Hp' | ? c' p' l' Hin' Hp' Hl']; subst;
    pose proof (category_unique cs id c c' Hnd Hin Hin') as <-.
  - reflexivity.
  - congruence.
  - congruence.
  - assert (p' = p) by congruence. subst p'. f_equal. now apply IH.
Qed.

Lemma chain_suffix cs id l :
  chain cs id l ->
  forall x l1 l2, l = l1 ++ x :: l2 -> chain cs x (x :: l2).
Proof.
  induction 1 as [id c Hin Hp | id c p l Hin Hp Hl IH]; intros x l1 l2 E.
  - destruct l1 as [| a l1]; simpl in E.
    + injection E as <- <-. now apply chain_root with c.
    + injection E as _ E. destruct l1; discriminate E.
  - destruct l1 as [| a l1]; simpl in E.
    + injection E as <- <-. now apply chain_child with c p.
    + injection E as _ E. now apply (IH x l1 l2).
Qed.

Lemma chain_NoDup cs id l :
  NoDup (map fst cs) -> chain cs id l -> NoDup l.
Proof.
  intros Hnd H.
  induction H as [id c Hin Hp | id c p l Hin Hp Hl IH].
  - apply NoDup_singleton.
  - apply NoDup_cons. split; [| exact IH].
    intros Hid. apply list_elem_of_In, in_split in Hid as (l1 & l2 & E).
    pose proof (chain_suffix cs p l Hl id l1 l2 E) as Hs.
    pose proof (chain_child cs id c p l Hin Hp Hl) as Hc.
    pose proof (chain_unique cs id _ _ Hnd Hs Hc) as Eq.
    injection Eq as Eq. subst l2.
    apply (f_equal (@length _)) in E. rewrite length_app in E. simpl in E. lia.
Qed.

Lemma chain_ids cs id l :
  chain cs id l -> forall x, In x l -> In x (map fst cs).
Proof.
  induction 1 as [id c Hin Hp | id c p l Hin Hp Hl IH]; intros x Hx.
  - destruct Hx as [<- | []]. now apply In_fst with c.
  - destruct Hx as [<- | Hx]; [now apply In_fst with c | now apply IH].
Qed.

Lemma chain_length cs id l :
  NoDup (map fst cs) -> chain cs id l -> (length l <= length cs)%nat.
Proof.
  intros Hnd H.
  rewrite <- (length_map fst cs).
  apply submseteq_length, NoDup_submseteq.
  - now apply chain_NoDup with cs id.
  - intros x Hx. apply list_elem_of_In. apply (chain_ids cs id l H).
    now apply list_elem_of_In.
Qed.

(** *** The answer *)

Lemma mapM_all {A B} (f : A -> option B) (l : list A) :
  (forall x, In x l -> exists y, f x = Some y) ->
  exists k, mapM f l = Some k /\ length k = length l.
Proof.
  induction l as [| a l IH]; intros H.
  - now exists [].
  - destruct (H a (or_introl eq_refl)) as [y Hy].
    destruct IH as [k [Hk Hl]]; [intros x Hx; apply H; now right |].
    exists (y :: k). simpl. rewrite Hy. simpl. rewrite Hk. simpl.
    split; [reflexivity | now rewrite Hl].
Qed.

Lemma toJSON_total cs :
  NoDup (map fst cs) ->
  forall fuel id l,
    chain cs id l ->
    (length cs < length l + fuel)%nat ->
    exists t, toJSON fuel (fst (secondPass cs (firstPass cs))) id = Some t.
Proof.
  intros Hnd. induction fuel as [| fuel IH]; intros id l Hc Hlen.
  - pose proof (chain_length cs id l Hnd Hc). lia.
  - assert (Hin : exists c, In (id, c) cs) by (inversion Hc; eauto).
    destruct Hin as [c Hin]. cbn [toJSON].
    rewrite (secondPass_lookup cs id c Hnd Hin). cbn [TreeNode.children].
    destruct (mapM_all (toJSON fuel (fst (secondPass cs (firstPass cs))))
                (childrenOf id cs)) as [k [Hk _]].
    + intros x Hx. apply childrenOf_In in Hx as [cx [Hinx Hpx]].
      apply (IH x (x :: l)).
      * now apply chain_child with cx id.
      * simpl. lia.
    + rewrite Hk. eauto.
Qed.

Lemma subtrees_eq id c kids :
  subtrees (TreeOf id c kids)
  = TreeOf id c kids :: concat (map subtrees kids).
Proof.
  simpl. f_equal. induction kids as [| k kids IH]; simpl; [reflexivity |].
  now rewrite IH.
Qed.

Lemma nodes_eq id c kids :
  nodes (TreeOf id c kids) = id :: concat (map nodes kids).
Proof.
  unfold nodes. rewrite subtrees_eq. simpl. f_equal.
  rewrite concat_map, map_map. reflexivity.
Qed.

Lemma nodes_head t : In (treeId t) (nodes t).
Proof. destruct t as [id c kids]. rewrite nodes_eq. now left. Qed.

Lemma Forall2_In_r {A B} (R : A -> B -> Prop) l k y :
  Forall2 R l k -> In y k -> exists x, In x l /\ R x y.
Proof.
  induction 1 as [| a b l k Hab _ IH]; intros Hy; [contradiction |].
  destruct Hy as [<- | Hy].
  - exists a. split; [now left | exact Hab].
  - destruct (IH Hy) as [x [Hx HR]]. exists x. split; [now right | exact HR].
Qed.

Lemma Forall2_In_l {A B} (R : A -> B -> Prop) l k x :
  Forall2 R l k -> In x l -> exists y, In y k /\ R x y.
Proof.
  induction 1 as [| a b l k Hab _ IH]; intros Hx; [contradiction |].
  destruct Hx as [<- | Hx].
  - exists b. split; [now left | exact Hab].
  - destruct (IH Hx) as [y [Hy HR]]. exists y. split; [now right | exact HR].
Qed.

Section Tree.

Variable cs : list (ObjectId * Category.t).
Hypothesis ids_distinct : NoDup (map fst cs).

Lemma toJSON_inv fuel id t :
  toJSON fuel (categoryObjects cs) id = Some t ->
  exists fuel' c kids,
    fuel = S fuel' /\ In (id, c) cs /\ t = TreeOf id c kids
    /\ Forall2 (fun ch kid => toJSON fuel' (categoryObjects cs) ch = Some kid)
         (childrenOf id cs) kids.
Proof.
  destruct fuel as [| fuel']; [discriminate |]. cbn [toJSON].
  destruct (in_dec Nat.eq_dec id (map fst cs)) as [Hin | Hout].
  - apply in_map_iff in Hin as [[k c] [E Hin]]. simpl in E. subst k.
    unfold categoryObjects. rewrite (secondPass_lookup cs id c ids_distinct Hin).
    cbn [TreeNode.children TreeNode.category].
    destruct (mapM _ _) as [kids |] eqn:Em; [| discriminate].
    intros E. injection E as <-. exists fuel', c, kids.
    repeat split; [exact Hin |]. now apply mapM_Some.
  - unfold categoryObjects. rewrite (secondPass_lookup_None cs id Hout). discriminate.
Qed.

Lemma toJSON_treeId fuel id t :
  toJSON fuel (categoryObjects cs) id = Some t -> treeId t = id.
Proof.
  intros H. apply toJSON_inv in H as (f & c & kids & _ & _ & -> & _).
  reflexivity.
Qed.

(** Every subtree of an answer lists the children of its category. *)
Lemma toJSON_shape fuel :
  forall id t,
    toJSON fuel (categoryObjects cs) id = Some t ->
    forall s, In s (subtrees t) ->
      In (treeId s, treeCategory s) cs
      /\ map treeId (treeChildren s) = childrenOf (treeId s) cs.
Proof.
  induction fuel as [| fuel IH]; intros id t H s Hs; [discriminate |].
  apply toJSON_inv in H as (f & c & kids & Ef & Hin & -> & Hk).
  injection Ef as <-. rewrite subtrees_eq in Hs. destruct Hs as [<- | Hs].
  - simpl. split; [exact Hin |].
    clear -Hk ids_distinct. induction Hk as [| ch kid l k Hck _ IHk]; simpl.
    + reflexivity.
    + rewrite IHk. f_equal. now apply toJSON_treeId with fuel.
  - apply in_concat in Hs as [l [Hl Hs]].
    apply in_map_iff in Hl as [kid [<- Hkid]].
    destruct (Forall2_In_r _ _ _ _ Hk Hkid) as [ch [_ Hch]].
    now apply (IH ch kid Hch).
Qed.

(** The nodes of an answer lie below its root. *)
Lemma toJSON_below fuel :
  forall id t l,
    toJSON fuel (categoryObjects cs) id = Some t ->
    chain cs id l ->
    forall x, In x (nodes t) -> exists l1, chain cs x (l1 ++ l).
Proof.
  induction fuel as [| fuel IH]; intros id t l H Hc x Hx; [discriminate |].
  apply toJSON_inv in H as (f & c & kids & Ef & Hin & -> & Hk).
  injection Ef as <-. rewrite nodes_eq in Hx. destruct Hx as [<- | Hx].
  - now exists [].
  - apply in_concat in Hx as [ns [Hns Hx]].
    apply in_map_iff in Hns as [kid [<- Hkid]].
    destruct (Forall2_In_r _ _ _ _ Hk Hkid) as [ch [Hch Hj]].
    apply childrenOf_In in Hch as [cc [Hinc Hpc]].
    assert (Hcc : chain cs ch (ch :: l)) by now apply chain_child with cc id.
    destruct (IH ch kid (ch :: l) Hj Hcc x Hx) as [l1 Hl1].
    exists (l1 ++ [ch]). now rewrite <- app_assoc.
Qed.

(** The children of a node of an answer are nodes of the answer. *)
Lemma toJSON_closed fuel :
  forall id t,
    toJSON fuel (categoryObjects cs) id = Some t ->
    forall p x c, In p (nodes t) -> In (x, c) cs ->
                  Category.parent c = Some p -> In x (nodes t).
Proof.
  induction fuel as [| fuel IH]; intros id t H p x cx Hp Hx Hpx; [discriminate |].
  apply toJSON_inv in H as (f & c & kids & Ef & Hin & -> & Hk).
  injection Ef as <-. rewrite nodes_eq in *. right. apply in_concat.
  destruct Hp as [<- | Hp].
  - assert (Hch : In x (childrenOf id cs))
      by (apply childrenOf_In; now exists cx).
    destruct (Forall2_In_l _ _ _ _ Hk Hch) as [kid [Hkid Hj]].
    exists (nodes kid). split; [now apply in_map |].
    rewrite <- (toJSON_treeId _ _ _ Hj). apply nodes_head.
  - apply in_concat in Hp as [ns [Hns Hp]].
    apply in_map_iff in Hns as [kid [<- Hkid]].
    destruct (Forall2_In_r _ _ _ _ Hk Hkid) as [ch [_ Hj]].
    exists (nodes kid). split; [now apply in_map |].
    now apply (IH ch kid Hj p x cx).
Qed.

Lemma childrenOf_NoDup p : NoDup (childrenOf p cs).
Proof.
  unfold childrenOf.
  induction cs as [| [k v] rest IH]; simpl in *.
  - apply NoDup_nil_2.
  - apply NoDup_cons in ids_distinct as [Hk Hnd].
    destruct (hasParent p (k, v)); [| now apply IH].
    simpl. apply NoDup_cons. split; [| now apply IH].
    intros H. apply Hk. apply list_elem_of_In in H. apply list_elem_of_In.
    apply in_map_iff in H as [[k' v'] [E H]]. simpl in E. subst k'.
    apply filter_In in H as [H _]. now apply (In_fst rest k v').
Qed.

Lemma rootsOf_NoDup : NoDup (rootsOf cs).
Proof.
  unfold rootsOf.
  induction cs as [| [k v] rest IH]; simpl in *.
  - apply NoDup_nil_2.
  - apply NoDup_cons in ids_distinct as [Hk Hnd].
    destruct (isRoot (k, v)); [| now apply IH].
    simpl. apply NoDup_cons. split; [| now apply IH].
    intros H. apply Hk. apply list_elem_of_In in H. apply list_elem_of_In.
    apply in_map_iff in H as [[k' v'] [E H]]. simpl in E. subst k'.
    apply filter_In in H as [H _]. now apply (In_fst rest k v').
Qed.

(** Trees under distinct references that share no node give a list of
    nodes without repetition. *)
Lemma concat_nodes_NoDup (R : ObjectId -> CategoryTree -> Prop) refs trees :
  Forall2 R refs trees ->
  NoDup refs ->
  (forall ref t, In ref refs -> R ref t -> NoDup (nodes t)) ->
  (forall r1 t1 r2 t2 x,
      In r1 refs -> In r2 refs -> R r1 t1 -> R r2 t2 ->
      In x (nodes t1) -> In x (nodes t2) -> r1 = r2) ->
  NoDup (concat (map nodes trees)).
Proof.
  induction 1 as [| ref t refs trees Hrt Hrest IH]; intros Hnd Hone Hsep; simpl.
  - apply NoDup_nil_2.
  - apply NoDup_cons in Hnd as [Href Hnd]. apply NoDup_app. split; [| split].
    + apply (Hone ref t); [now left | exact Hrt].
    + intros x Hx Hx'. apply list_elem_of_In in Hx, Hx'.
      apply in_concat in Hx' as [ns [Hns Hx']].
      apply in_map_iff in Hns as [t' [<- Ht']].
      destruct (Forall2_In_r _ _ _ _ Hrest Ht') as [ref' [Hin' Hrt']].
      assert (E : ref = ref').
      { apply (Hsep ref t ref' t' x); auto; [now left | now right]. }
      subst ref'. apply Href. now apply list_elem_of_In.
    + apply IH; [exact Hnd | |].
      * intros r t' Hr. apply Hone. now right.
      * intros r1 t1 r2 t2 x H1 H2. apply Hsep; now right.
Qed.

Lemma chain_same_tail x l1 l2 a b l :
  chain cs x (l1 ++ a :: l) -> chain cs x (l2 ++ b :: l) -> a = b.
Proof.
  intros H1 H2. pose proof (chain_unique cs x _ _ ids_distinct H1 H2) as E.
  assert (E' : (l1 ++ [a]) ++ l = (l2 ++ [b]) ++ l)
    by (now rewrite <- !app_assoc).
  apply app_inv_tail in E'. now apply app_inj_tail in E' as [_ E'].
Qed.

Lemma toJSON_NoDup fuel :
  forall id t l,
    toJSON fuel (categoryObjects cs) id = Some t -> chain cs id l -> NoDup (nodes t).
Proof.
  induction fuel as [| fuel IH]; intros id t l H Hc; [discriminate |].
  pose proof H as H0.
  apply toJSON_inv in H as (f & c & kids & Ef & Hin & -> & Hk).
  injection Ef as <-. rewrite nodes_eq.
  assert (Hkid : forall ch, In ch (childrenOf id cs) -> chain cs ch (ch :: l)).
  { intros ch Hch. apply childrenOf_In in Hch as [cc [Hinc Hpc]].
    now apply chain_child with cc id. }
  apply NoDup_cons. split.
  - intros Hid. apply list_elem_of_In in Hid.
    apply in_concat in Hid as [ns [Hns Hid]].
    apply in_map_iff in Hns as [kid [<- Hkd]].
    destruct (Forall2_In_r _ _ _ _ Hk Hkd) as [ch [Hch Hj]].
    destruct (toJSON_below fuel ch kid (ch :: l) Hj (Hkid ch Hch) id Hid)
      as [l1 Hl1].
    pose proof (chain_unique cs id _ _ ids_distinct Hl1 Hc) as E.
    apply (f_equal (@length _)) in E. rewrite length_app in E. simpl in E. lia.
  - apply (concat_nodes_NoDup
             (fun ch kid => toJSON fuel (categoryObjects cs) ch = Some kid)
             (childrenOf id cs) kids Hk (childrenOf_NoDup id)).
    + intros ch kid Hch Hj. apply (IH ch kid (ch :: l) Hj (Hkid ch Hch)).
    + intros r1 t1 r2 t2 x Hr1 Hr2 Hj1 Hj2 Hx1 Hx2.
      destruct (toJSON_below fuel r1 t1 (r1 :: l) Hj1 (Hkid r1 Hr1) x Hx1)
        as [l1 Hl1].
      destruct (toJSON_below fuel r2 t2 (r2 :: l) Hj2 (Hkid r2 Hr2) x Hx2)
        as [l2 Hl2].
      now apply (chain_same_tail x l1 l2 r1 r2 l).
Qed.

Lemma root_chain r : In r (rootsOf cs) -> chain cs r [r].
Proof.
  intros H. apply rootsOf_In in H as [c [Hin Hp]]. now apply chain_root with c.
Qed.

Lemma getCategoryTree_forest :
  exists forest,
    getCategoryTree cs = Some forest
    /\ Forall2 (fun r t => toJSON (length cs) (categoryObjects cs) r = Some t)
         (rootsOf cs) forest.
Proof.
  unfold getCategoryTree.
  rewrite (surjective_pairing (secondPass cs (firstPass cs))).
  rewrite secondPass_tree. fold (categoryObjects cs).
  destruct (mapM_all (toJSON (length cs) (categoryObjects cs)) (rootsOf cs))
    as [forest [Hf _]].
  - intros r Hr. apply (toJSON_total cs ids_distinct (length cs) r [r]).
    + now apply root_chain.
    + simpl. lia.
  - exists forest. split; [exact Hf | now apply mapM_Some].
Qed.

End Tree.

(** X27.  For categories with distinct ids [getCategoryTree] answers with
    a finite forest, whatever the parent references are (also when they
    form a cycle): its top level is the categories without parent, in the
    order of the query, and every node in it carries its own category and
    has as children exactly the categories naming it as parent, in the
    order of the query. *)
Theorem getCategoryTree_shape (categories : list (ObjectId * Category.t)) :
  NoDup (map fst categories) ->
  exists forest,
    getCategoryTree categories = Some forest
    /\ map treeId forest = rootsOf categories
    /\ forall t, In t (forestSubtrees forest) ->
         In (treeId t, treeCategory t) categories
         /\ map treeId (treeChildren t) = childrenOf (treeId t) categories.
Proof.
  intros Hnd. destruct (getCategoryTree_forest categories Hnd)
    as [forest [Hf Hall]].
  exists forest. split; [exact Hf |]. split.
  - clear Hf. induction Hall as [| r t rs ts Hrt _ IH]; simpl.
    + reflexivity.
    + rewrite IH. f_equal. now apply toJSON_treeId in Hrt.
  - intros t Ht. apply in_concat in Ht as [l [Hl Ht]].
    apply in_map_iff in Hl as [root [<- Hroot]].
    destruct (Forall2_In_r _ _ _ _ Hall Hroot) as [r [_ Hj]].
    now apply (toJSON_shape categories Hnd _ r root Hj).
Qed.

Lemma sampleTree_distinct : NoDup (map fst sampleTree).
Proof.
  apply (bool_decide_unpack _). vm_compute. exact I.
Defined.

Lemma getCategoryTree_shape_witness :
  exists forest,
    getCategoryTree sampleTree = Some forest
    /\ map treeId forest = rootsOf sampleTree
    /\ forall t, In t (forestSubtrees forest) ->
         In (treeId t, treeCategory t) sampleTree
         /\ map treeId (treeChildren t) = childrenOf (treeId t) sampleTree.
Proof.
  apply (getCategoryTree_shape sampleTree). exact sampleTree_distinct.
Defined.

(** X28.  The forest [getCategoryTree] answers with holds every category
    at most once, and holds exactly the categories from which following
    the parents inside the query result ends at a category without
    parent: a category under a parent the query did not find is left out
    together with everything below it. *)
Theorem getCategoryTree_covers (categories : list (ObjectId * Category.t)) :
  NoDup (map fst categories) ->
  exists forest,
    getCategoryTree categories = Some forest
    /\ NoDup (forestNodes forest)
    /\ forall id, In id (forestNodes forest) <-> attached categories id.
Proof.
  intros Hnd. destruct (getCategoryTree_forest categories Hnd)
    as [forest [Hf Hall]].
  exists forest. split; [exact Hf |]. split; [| intros id; split].
  - unfold forestNodes.
    apply (concat_nodes_NoDup _ _ _ Hall (rootsOf_NoDup categories Hnd)).
    + intros r t Hr Hj.
      apply (toJSON_NoDup categories Hnd _ r t [r] Hj).
      now apply root_chain.
    + intros r1 t1 r2 t2 x Hr1 Hr2 Hj1 Hj2 Hx1 Hx2.
      destruct (toJSON_below categories Hnd _ r1 t1 [r1] Hj1
                  (root_chain categories r1 Hr1) x Hx1) as [l1 Hl1].
      destruct (toJSON_below categories Hnd _ r2 t2 [r2] Hj2
                  (root_chain categories r2 Hr2) x Hx2) as [l2 Hl2].
      now apply (chain_same_tail categories Hnd x l1 l2 r1 r2 []).
  - intros Hin. apply in_concat in Hin as [ns [Hns Hin]].
    apply in_map_iff in Hns as [t [<- Ht]].
    destruct (Forall2_In_r _ _ _ _ Hall Ht) as [r [Hr Hj]].
    destruct (toJSON_below categories Hnd _ r t [r] Hj
                (root_chain categories r Hr) id Hin) as [l1 Hl1].
    apply attached_chain. eauto.
  - intros Ha.
    induction Ha as [id c Hin Hp | id c p Hin Hp _ IH].
    + assert (Hr : In id (rootsOf categories))
        by (apply rootsOf_In; now exists c).
      destruct (Forall2_In_l _ _ _ _ Hall Hr) as [t [Ht Hj]].
      apply in_concat. exists (nodes t). split; [now apply in_map |].
      rewrite <- (toJSON_treeId categories Hnd _ _ _ Hj). apply nodes_head.
    + apply in_concat in IH as [ns [Hns Hpn]].
      apply in_map_iff in Hns as [t [<- Ht]].
      destruct (Forall2_In_r _ _ _ _ Hall Ht) as [r [_ Hj]].
      apply in_concat. exists (nodes t). split; [now apply in_map |].
      now apply (toJSON_closed categories Hnd _ r t Hj p id c).
Qed.

Lemma getCategoryTree_covers_witness :
  exists forest,
    getCategoryTree sampleTree = Some forest
    /\ NoDup (forestNodes forest)
    /\ forall id, In id (forestNodes forest) <-> attached sampleTree id.
Proof.
  apply (getCategoryTree_covers sampleTree). exact sampleTree_distinct.
Defined.
